(** * NEXAR marketplace: the landing page's listing retrieval and the
      policy-repair migration

    Two parts of the repository are embedded here:

    - [HomePage]: the data half of [src/pages/HomePage.tsx], that is
      [formatListing], [loadListings] and [handleCategoryClick] together with
      the five [useState] cells they write;
    - [Migration]: the row-level policies on [listings] and the
      [handle_new_user] trigger function of the migration
      [20250701150123_dusty_morning.sql].

    Further modules embed the rest of what these files compute: [Card] the
    listing card and the seller button of the page, [Tables] the policies on
    the other tables, [Repair] steps 16 and 17 of the migration, and
    [Availability] the migration that adds the availability column. *)

From Stdlib Require Import ZArith String Ascii.
From stdpp Require Import gmap strings list fin_maps.

Local Open Scope string_scope.
Local Open Scope list_scope.

(** ** JavaScript values *)

Module Js.

(** The values a column of a fetched row can hold: the JSON scalars, arrays
    of values, and [undefined] for what is absent.  Numbers are the integer
    ones.  Arrays are objects, so each carries the reference that [===]
    compares. *)
#[warnings="-register-all"]
Inductive value : Type :=
| VUndefined
| VNull
| VBool (b : bool)
| VNum (n : Z)
| VStr (s : string)
| VArr (ref : nat) (elems : list value).

(** A plain object: its own properties by name. *)
Abbreviation object := (gmap string value).

(** [o.k]: reading a property that is absent gives [undefined]. *)
Definition get (o : object) (k : string) : value := default VUndefined (o !! k).

(** The value an object literal gives to a name: its first entry of that
    name. *)
Fixpoint own_property (k : string) (entries : list (string * value)) : option value :=
  match entries with
  | [] => None
  | (k', v) :: rest => if String.eqb k' k then Some v else own_property k rest
  end.

(** ToBoolean. *)
Definition truthy (v : value) : bool :=
  match v with
  | VUndefined | VNull => false
  | VBool b => b
  | VNum n => negb (n =? 0)%Z
  | VStr s => negb (String.eqb s "")
  | VArr _ _ => true
  end.

(** [a === b]. *)
Definition strict_eq (a b : value) : bool :=
  match a, b with
  | VUndefined, VUndefined => true
  | VNull, VNull => true
  | VBool x, VBool y => Bool.eqb x y
  | VNum x, VNum y => (x =? y)%Z
  | VStr x, VStr y => String.eqb x y
  | VArr r1 _, VArr r2 _ => (r1 =? r2)%nat
  | _, _ => false
  end.

(** [a || b] on values. *)
Definition or_else (a b : value) : value := if truthy a then a else b.

(** What is thrown or handed back as a failure: an object whose [message]
    may be absent. *)
Record error_obj : Type := { message : option string }.

Definition type_error : error_obj :=
  {| message := Some "Cannot read properties of undefined" |}.

(** Evaluation of an expression either yields a value or throws. *)
Inductive result (A : Type) : Type :=
| Ok (a : A)
| Throw (e : error_obj).
Arguments Ok {A} a.
Arguments Throw {A} e.

Definition rbind {A B} (r : result A) (k : A -> result B) : result B :=
  match r with
  | Ok a => k a
  | Throw e => Throw e
  end.

(** [v.length]: a number on arrays and strings, [undefined] (here [None])
    on the other scalars, a TypeError on [undefined] and [null]. *)
Definition length_of (v : value) : result (option Z) :=
  match v with
  | VUndefined | VNull => Throw type_error
  | VArr _ elems => Ok (Some (Z.of_nat (length elems)))
  | VStr s => Ok (Some (Z.of_nat (String.length s)))
  | VBool _ | VNum _ => Ok None
  end.

(** [v[0]]. *)
Definition index0 (v : value) : result value :=
  match v with
  | VUndefined | VNull => Throw type_error
  | VArr _ (x :: _) => Ok x
  | VStr (String c _) => Ok (VStr (String c ""))
  | _ => Ok VUndefined
  end.

(** [n > 0] for what [length_of] returns: a number is compared, [undefined]
    becomes NaN and the comparison is false. *)
Definition gt0 (n : option Z) : bool :=
  match n with
  | Some k => (0 <? k)%Z
  | None => false
  end.

(** [s.includes(search)]. *)
Fixpoint includes (s search : string) : bool :=
  String.prefix search s ||
  match s with
  | EmptyString => false
  | String _ rest => includes rest search
  end.

(** [m?.includes(search)] used as a condition: an absent message gives
    [undefined], which is falsy. *)
Definition opt_includes (m : option string) (search : string) : bool :=
  match m with
  | Some s => includes s search
  | None => false
  end.

End Js.

(** ** The landing page *)

Module HomePage.
Import Js.

Definition fallbackImage : string := "/category-images/fallback.jpg".

(** *** formatListing *)

(** [listing.images && listing.images.length > 0 ? listing.images[0] : fallbackImage] *)
Definition cover_image (listing : object) : result value :=
  let images := get listing "images" in
  if truthy images then
    rbind (length_of images) (fun n =>
      if gt0 n then index0 images else Ok (VStr fallbackImage))
  else Ok (VStr fallbackImage).

Definition formatListing (listing : object) : result object :=
  rbind (cover_image listing) (fun image =>
    Ok (list_to_map
      [ ("id", get listing "id");
        ("title", get listing "title");
        ("price", get listing "price");
        ("year", get listing "year");
        ("mileage", get listing "mileage");
        ("location", get listing "location");
        ("image", image);
        ("seller", get listing "seller_name");
        ("sellerId", get listing "seller_id");
        ("sellerType", get listing "seller_type");
        ("category", get listing "category");
        ("brand", get listing "brand");
        ("model", get listing "model");
        ("featured", or_else (get listing "featured") (VBool false));
        ("availability", or_else (get listing "availability") (VStr "pe_stoc")) ])).

(** [xs.map(f)] for an [f] that may throw: the first throw ends the map. *)
Fixpoint map_result {A B} (f : A -> result B) (xs : list A) : result (list B) :=
  match xs with
  | [] => Ok []
  | x :: rest =>
      rbind (f x) (fun y => rbind (map_result f rest) (fun ys => Ok (y :: ys)))
  end.

(** *** The component's state *)

Record state : Type := {
  featuredListings : list object;
  recentListings : list object;
  isLoading : bool;
  error : option string;
  networkError : option error_obj
}.

(** The state of the first render. *)
Definition initial : state :=
  {| featuredListings := []; recentListings := []; isLoading := true;
     error := None; networkError := None |}.

(** *** The data source *)

(** The argument of [listings.getAll]. *)
Record filters : Type := { featured : option bool; category : option string }.

(** What awaiting [listings.getAll] gives: the pair [{ data, error }], or a
    rejection. *)
Inductive response : Type :=
| Resolved (data : option (list object)) (err : option error_obj)
| Rejected (e : error_obj).

(** *** Statements of an async function body

    A statement runs on the state and either goes on with a value, leaves the
    function through [return], or throws. *)
Inductive flow (A : Type) : Type :=
| Next (a : A)
| Return
| Raise (e : error_obj).
Arguments Next {A} a.
Arguments Return {A}.
Arguments Raise {A} e.

Definition action (A : Type) : Type := state -> flow A * state.

Definition pure {A} (a : A) : action A := fun s => (Next a, s).

Definition bind {A B} (c : action A) (k : A -> action B) : action B :=
  fun s =>
    match c s with
    | (Next a, s') => k a s'
    | (Return, s') => (Return, s')
    | (Raise e, s') => (Raise e, s')
    end.

Notation "'let*' x := c 'in' k" := (bind c (fun x => k))
  (at level 10, x pattern, c at level 100, k at level 200).
Notation "c ;; k" := (bind c (fun _ => k))
  (at level 100, k at level 200, right associativity).

Definition return_ {A} : action A := fun s => (Return, s).

Definition await (r : response) : action (option (list object) * option error_obj) :=
  fun s =>
    match r with
    | Resolved data err => (Next (data, err), s)
    | Rejected e => (Raise e, s)
    end.

Definition eval {A} (r : result A) : action A :=
  fun s =>
    match r with
    | Ok a => (Next a, s)
    | Throw e => (Raise e, s)
    end.

Definition setFeaturedListings (v : list object) : action unit :=
  fun s => (Next tt,
    {| featuredListings := v; recentListings := recentListings s;
       isLoading := isLoading s; error := error s; networkError := networkError s |}).

Definition setRecentListings (v : list object) : action unit :=
  fun s => (Next tt,
    {| featuredListings := featuredListings s; recentListings := v;
       isLoading := isLoading s; error := error s; networkError := networkError s |}).

Definition setIsLoading (v : bool) : action unit :=
  fun s => (Next tt,
    {| featuredListings := featuredListings s; recentListings := recentListings s;
       isLoading := v; error := error s; networkError := networkError s |}).

Definition setError (v : option string) : action unit :=
  fun s => (Next tt,
    {| featuredListings := featuredListings s; recentListings := recentListings s;
       isLoading := isLoading s; error := v; networkError := networkError s |}).

Definition setNetworkError (v : option error_obj) : action unit :=
  fun s => (Next tt,
    {| featuredListings := featuredListings s; recentListings := recentListings s;
       isLoading := isLoading s; error := error s; networkError := v |}).

(** [try { body } catch (err) { handler } finally { final }], run as the whole
    body of an async function: the state it leaves. *)
Definition try_catch_finally (body : action unit) (handler : error_obj -> action unit)
    (final : action unit) (s : state) : state :=
  match body s with
  | (Raise e, s1) => snd (final (snd (handler e s1)))
  | (_, s1) => snd (final s1)
  end.

(** [e.message?.includes('fetch') || e.message?.includes('network')] *)
Definition looks_like_network (e : error_obj) : bool :=
  opt_includes (message e) "fetch" || opt_includes (message e) "network".

(** *** loadListings and handleCategoryClick *)

Section Component.

(** [listings.getAll] of [../lib/supabase], as what awaiting it gives for each
    argument. *)
Variable getAll : option filters -> response.

Definition loadListings : state -> state :=
  try_catch_finally
    (setIsLoading true ;;
     setError None ;;
     setNetworkError None ;;
     let* (featuredData, featuredError) :=
       await (getAll (Some {| featured := Some true; category := None |})) in
     match featuredError with
     | Some featuredError =>
         (if looks_like_network featuredError
          then (setNetworkError (Some featuredError) ;; return_)
          else pure tt) ;;
         setError (Some "Nu s-au putut încărca anunțurile recomandate") ;;
         return_
     | None => pure tt
     end ;;
     let* (recentData, recentError) := await (getAll None) in
     match recentError with
     | Some recentError =>
         (if looks_like_network recentError
          then (setNetworkError (Some recentError) ;; return_)
          else pure tt) ;;
         setError (Some "Nu s-au putut încărca anunțurile recente") ;;
         return_
     | None => pure tt
     end ;;
     let* formattedFeatured :=
       eval (map_result formatListing (take 4 (default [] featuredData))) in
     let* formattedRecent :=
       eval (map_result formatListing
               (take 8
                  (List.filter
                     (fun listing =>
                        negb (existsb
                                (fun f => strict_eq (get f "id") (get listing "id"))
                                formattedFeatured))
                     (default [] recentData)))) in
     setFeaturedListings formattedFeatured ;;
     setRecentListings formattedRecent)
    (fun err =>
       if looks_like_network err
       then setNetworkError (Some err)
       else setError (Some "A apărut o eroare la încărcarea anunțurilor"))
    (setIsLoading false).

Definition handleCategoryClick (category : string) : state -> state :=
  try_catch_finally
    (setIsLoading true ;;
     setError None ;;
     setNetworkError None ;;
     let* (data, error) :=
       await (getAll (Some {| featured := None; category := Some category |})) in
     match error with
     | Some error =>
         (if looks_like_network error
          then (setNetworkError (Some error) ;; return_)
          else pure tt) ;;
         setError (Some ("Nu s-au putut încărca anunțurile din categoria " +:+ category)) ;;
         return_
     | None => pure tt
     end ;;
     let* formattedListings := eval (map_result formatListing (default [] data)) in
     setFeaturedListings [] ;;
     setRecentListings formattedListings)
    (fun err =>
       if looks_like_network err
       then setNetworkError (Some err)
       else setError (Some ("A apărut o eroare la filtrarea după categoria " +:+ category)))
    (setIsLoading false).

(** Which fetch the page runs, and the failure it meets, if any: the first
    [error] or rejection on its way. *)
Inductive fetch : Type :=
| LoadListings
| CategoryClick (category : string).

Definition run (f : fetch) : state -> state :=
  match f with
  | LoadListings => loadListings
  | CategoryClick category => handleCategoryClick category
  end.

Definition failure (r : response) : option error_obj :=
  match r with
  | Resolved _ err => err
  | Rejected e => Some e
  end.

Definition fetch_failure (f : fetch) : option error_obj :=
  match f with
  | LoadListings =>
      match failure (getAll (Some {| featured := Some true; category := None |})) with
      | Some e => Some e
      | None => failure (getAll None)
      end
  | CategoryClick c =>
      failure (getAll (Some {| featured := None; category := Some c |}))
  end.

End Component.

(** *** What is rendered

    Which branch of the markup the state selects: the early return on
    [networkError], then the branches of the listings sections: placeholders
    while loading, the error panel when [error] is a non-empty text, and
    otherwise the two grids, whose cards are then drawn from the lists, one
    call of [ListingCard] per record. *)
Inductive view : Type :=
| NetworkErrorView (e : error_obj)
| LoadingView
| ErrorView (msg : string)
| ListingsView (featured recent : list object).

Definition render (s : state) : view :=
  match networkError s with
  | Some e => NetworkErrorView e
  | None =>
      if isLoading s then LoadingView
      else match error s with
           | Some (String c msg) => ErrorView (String c msg)
           | _ => ListingsView (featuredListings s) (recentListings s)
           end
  end.

(** *** Words of the properties *)

(** A property of a record is missing: reading it gives [undefined] or [null]. *)
Definition missing (listing : object) (k : string) : Prop :=
  get listing k = VUndefined \/ get listing k = VNull.

Definition empty_array (v : value) : Prop := exists ref, v = VArr ref [].

(** The message of a failure contains a text. *)
Definition contains (e : error_obj) (search : string) : Prop :=
  exists s pre post, message e = Some s /\ s = pre +:+ search +:+ post.

End HomePage.

(** ** The policy-repair migration *)

Module Migration.

(** *** SQL values

    A column or an expression of type [A] is an [option A]: [None] is NULL.
    Text and uuid values are strings. *)

Abbreviation text := string (only parsing).
Abbreviation uuid := string (only parsing).

(** [a = b] *)
Definition sql_eq (a b : option string) : option bool :=
  match a, b with
  | Some x, Some y => Some (String.eqb x y)
  | _, _ => None
  end.

(** [a AND b] *)
Definition sql_and (a b : option bool) : option bool :=
  match a, b with
  | Some false, _ | _, Some false => Some false
  | Some true, Some true => Some true
  | _, _ => None
  end.

(** [a IS NOT NULL] *)
Definition is_not_null {A} (a : option A) : option bool :=
  Some (match a with Some _ => true | None => false end).

(** [COALESCE(a, b)] *)
Definition coalesce {A} (a b : option A) : option A :=
  match a with
  | Some _ => a
  | None => b
  end.

(** A condition lets a row through only when it is true: NULL does not. *)
Definition holds (c : option bool) : bool :=
  match c with
  | Some true => true
  | _ => false
  end.

(** The text before the first [delim], the whole text when there is none. *)
Fixpoint first_field (delim : ascii) (s : string) : string :=
  match s with
  | EmptyString => EmptyString
  | String c rest =>
      if Ascii.eqb c delim then EmptyString else String c (first_field delim rest)
  end.

(** [split_part(s, '@', 1)] *)
Definition split_part_at_1 (s : option text) : option text :=
  first_field "@"%char <$> s.

#[warnings="-register-all"]
Inductive jsonb : Type :=
| JbNull
| JbString (s : string)
| JbNumber (n : Z)
| JbBool (b : bool)
| JbArray (elems : list jsonb)
| JbObject (fields : list (string * jsonb)).

Fixpoint field (key : string) (fields : list (string * jsonb)) : option jsonb :=
  match fields with
  | [] => None
  | (k, v) :: rest => if String.eqb k key then Some v else field key rest
  end.

(** *** Rows *)

Record auth_user : Type := {
  id : uuid;
  users_email : option text;
  raw_user_meta_data : option jsonb
}.

Record profile : Type := {
  profile_id : uuid;
  user_id : option uuid;
  name : option text;
  email : option text;
  phone : option text;
  location : option text;
  seller_type : option text;
  is_admin : option bool;
  verified : option bool
}.

Record listing : Type := {
  listing_id : uuid;
  seller_id : option uuid;
  status : option text
}.

(** *** handle_new_user *)

Record database : Type := {
  users : list auth_user;
  profiles : list profile;
  warnings : list string
}.

(** An error: the name of its condition and its message. *)
Record sql_error : Type := { condition : string; sqlerrm : string }.

(** [WHEN OTHERS] traps every condition but two. *)
Definition when_others (e : sql_error) : bool :=
  negb (String.eqb (condition e) "query_canceled"
        || String.eqb (condition e) "assert_failure").

(** What calling a trigger function ends in. *)
Inductive trigger_result : Type :=
| Returns (row : auth_user)
| Raises (e : sql_error).

Section Provisioning.

(** The text PostgreSQL prints for a json value that is not a string. *)
Variable jsonb_out : jsonb -> text.

(** The table [profiles] is created elsewhere: the default of its [id]
    column, and the error the insert of a row ends in, if any (a constraint
    the row violates, a cancelled statement). *)
Variable default_id : list profile -> uuid.
Variable violation : list profile -> profile -> option sql_error.


(** [j ->> key] *)
Definition get_text (j : option jsonb) (key : string) : option text :=
  match j with
  | Some (JbObject fields) =>
      match field key fields with
      | None | Some JbNull => None
      | Some (JbString s) => Some s
      | Some v => Some (jsonb_out v)
      end
  | _ => None
  end.

(** [INSERT INTO profiles (...) VALUES (...)] *)
Definition insert_profile (row : profile) (tbl : list profile)
    : list profile + sql_error :=
  match violation tbl row with
  | Some e => inr e
  | None => inl (tbl ++ [row])
  end.

(** The row of the VALUES list of [handle_new_user]. *)
Definition new_profile (NEW : auth_user) (tbl : list profile) : profile :=
  {| profile_id := default_id tbl;
     user_id := Some (id NEW);
     name := coalesce (get_text (raw_user_meta_data NEW) "name")
                      (split_part_at_1 (users_email NEW));
     email := users_email NEW;
     phone := coalesce (get_text (raw_user_meta_data NEW) "phone") (Some "");
     location := coalesce (get_text (raw_user_meta_data NEW) "location") (Some "");
     seller_type :=
       coalesce (get_text (raw_user_meta_data NEW) "sellerType") (Some "individual");
     is_admin := sql_eq (users_email NEW) (Some "admin@nexar.ro");
     verified := Some false |}.

(** The body: the block's INSERT, and the EXCEPTION WHEN OTHERS handler,
    which finds the block's changes undone.  An error the handler does not
    trap leaves the function. *)
Definition handle_new_user (NEW : auth_user) (db : database)
    : database * trigger_result :=
  match insert_profile (new_profile NEW (profiles db)) (profiles db) with
  | inl tbl =>
      ({| users := users db; profiles := tbl; warnings := warnings db |},
       Returns NEW)
  | inr e =>
      if when_others e then
        ({| users := users db; profiles := profiles db;
            warnings := warnings db ++
              ["Failed to create profile for user " +:+ id NEW +:+ ": " +:+ sqlerrm e] |},
         Returns NEW)
      else (db, Raises e)
  end.

(** [on_auth_user_created]: AFTER INSERT ON auth.users FOR EACH ROW.  The
    statement that inserts the account fails when the trigger raises. *)
Definition insert_auth_user (NEW : auth_user) (db : database)
    : database + sql_error :=
  let inserted :=
    {| users := users db ++ [NEW]; profiles := profiles db;
       warnings := warnings db |} in
  match handle_new_user NEW inserted with
  | (db', Returns _) => inl db'
  | (_, Raises e) => inr e
  end.

End Provisioning.

(** *** Row-level policies on listings *)

Inductive command : Type := SELECT | INSERT | UPDATE | DELETE.

(** The caller: [auth.uid()] and [auth.email()]. *)
Record caller : Type := { uid : option uuid; auth_email : option text }.

(** A policy on [listings]; [qual] is its USING expression (WITH CHECK for
    INSERT), read against the table [profiles].  A policy is permissive unless
    created AS RESTRICTIVE. *)
Record policy : Type := {
  policyname : string;
  permissive : bool;
  cmd : command;
  qual : list profile -> caller -> listing -> option bool
}.

(** [seller_id IN (SELECT id FROM profiles WHERE user_id = auth.uid() LIMIT 1)].
    Without ORDER BY the row LIMIT 1 keeps is left open; it is taken here as
    the first matching row in table order, which makes no difference when the
    profiles of a user have one id. *)
Definition seller_id_in_own_profile (tbl : list profile) (c : caller) (l : listing)
    : option bool :=
  match List.filter (fun p => holds (sql_eq (user_id p) (uid c))) tbl with
  | [] => Some false
  | p :: _ => sql_eq (seller_id l) (Some (profile_id p))
  end.

Definition own_listing (tbl : list profile) (c : caller) (l : listing) : option bool :=
  sql_and (is_not_null (uid c)) (seller_id_in_own_profile tbl c l).

Definition is_admin_email (tbl : list profile) (c : caller) (l : listing) : option bool :=
  sql_eq (auth_email c) (Some "admin@nexar.ro").

(** Step 5. *)
Definition listings_select_active : policy :=
  {| policyname := "listings_select_active"; permissive := true; cmd := SELECT;
     qual := fun _ _ l => sql_eq (status l) (Some "active") |}.
Definition listings_select_own : policy :=
  {| policyname := "listings_select_own"; permissive := true; cmd := SELECT;
     qual := own_listing |}.
Definition listings_insert_authenticated : policy :=
  {| policyname := "listings_insert_authenticated"; permissive := true; cmd := INSERT;
     qual := fun _ c _ => is_not_null (uid c) |}.
Definition listings_update_own : policy :=
  {| policyname := "listings_update_own"; permissive := true; cmd := UPDATE;
     qual := own_listing |}.
Definition listings_delete_own : policy :=
  {| policyname := "listings_delete_own"; permissive := true; cmd := DELETE;
     qual := own_listing |}.

(** Step 10. *)
Definition admin_select_all_listings : policy :=
  {| policyname := "admin_select_all_listings"; permissive := true; cmd := SELECT;
     qual := is_admin_email |}.
Definition admin_update_all_listings : policy :=
  {| policyname := "admin_update_all_listings"; permissive := true; cmd := UPDATE;
     qual := is_admin_email |}.
Definition admin_delete_all_listings : policy :=
  {| policyname := "admin_delete_all_listings"; permissive := true; cmd := DELETE;
     qual := is_admin_email |}.

(** The policies the migration creates on [listings], in the order of its
    statements. *)
Definition created_on_listings : list policy :=
  [ listings_select_active; listings_select_own; listings_insert_authenticated;
    listings_update_own; listings_delete_own; admin_select_all_listings;
    admin_update_all_listings; admin_delete_all_listings ].

(** [CREATE POLICY]: an error when the table has a policy of that name. *)
Definition create_policy (p : policy) (catalog : list policy) : option (list policy) :=
  if existsb (fun q => String.eqb (policyname q) (policyname p)) catalog
  then None
  else Some (catalog ++ [p]).

(** The CREATE POLICY statements of steps 5 and 10, run over the policies
    the table has: the first error ends the run. *)
Definition create_policies (catalog : list policy) : option (list policy) :=
  foldl (fun cat p => cat ≫= create_policy p) (Some catalog) created_on_listings.

Definition command_eqb (a b : command) : bool :=
  match a, b with
  | SELECT, SELECT | INSERT, INSERT | UPDATE, UPDATE | DELETE, DELETE => true
  | _, _ => false
  end.

(** Row-level security: a command reaches a row when the expression of one
    of its permissive policies is true and that of each of its restrictive
    policies is true. *)
Definition permitted (catalog : list policy) (tbl : list profile) (who : caller)
    (c : command) (l : listing) : bool :=
  let for_c := List.filter (fun p => command_eqb (cmd p) c) catalog in
  existsb (fun p => permissive p && holds (qual p tbl who l)) for_c
  && forallb (fun p => permissive p || holds (qual p tbl who l)) for_c.

End Migration.

(** ** Sample inputs *)

Module Examples.
Import Js HomePage.

(** A raw record that names its seller. *)
Definition listing_of_ion : object :=
  {[ "id" := VStr "a1"; "seller_name" := VStr "Ion" ]}.

Definition moto (n : Z) : object := {[ "id" := VNum n; "featured" := VBool (n <? 6)%Z ]}.

(** A data source with five featured listings among twelve, and three in
    every category. *)
Definition source_up (f : option filters) : response :=
  match f with
  | None => Resolved (Some (moto <$> [1; 2; 3; 4; 5; 6; 7; 8; 9; 10; 11; 12]%Z)) None
  | Some {| category := Some _ |} => Resolved (Some (moto <$> [2; 7; 9]%Z)) None
  | Some _ => Resolved (Some (moto <$> [1; 2; 3; 4; 5]%Z)) None
  end.

Definition unreachable : error_obj := {| message := Some "network unreachable" |}.

(** A data source out of reach. *)
Definition source_down (f : option filters) : response := Rejected unreachable.

(** A data source that answers the featured query and fails on the next. *)
Definition source_half (f : option filters) : response :=
  match f with
  | None => Resolved None (Some {| message := Some "permission denied" |})
  | Some _ => Resolved (Some (moto <$> [1; 2; 3; 4; 5]%Z)) None
  end.

(** The page once [source_up] has been loaded. *)
Definition loaded : state := loadListings source_up initial.

(** An account that signs up with the administrative address and tries to
    set the flags through its metadata, and one that gives no phone and no
    location. *)
Definition admin_signup : Migration.auth_user :=
  {| Migration.id := "u-1";
     Migration.users_email := Some "admin@nexar.ro";
     Migration.raw_user_meta_data :=
       Some (Migration.JbObject
               [("name", Migration.JbString "Admin");
                ("verified", Migration.JbBool true)]) |}.

Definition empty_database : Migration.database :=
  {| Migration.users := []; Migration.profiles := []; Migration.warnings := [] |}.

(** A seller, the administrator, and a listing of somebody else that is not
    active. *)
Definition profile_of_ion : Migration.profile :=
  {| Migration.profile_id := "p-ion"; Migration.user_id := Some "u-ion";
     Migration.name := Some "Ion"; Migration.email := Some "ion@example.ro";
     Migration.phone := Some ""; Migration.location := Some "";
     Migration.seller_type := Some "individual";
     Migration.is_admin := Some false; Migration.verified := Some false |}.

Definition ion : Migration.caller :=
  {| Migration.uid := Some "u-ion"; Migration.auth_email := Some "ion@example.ro" |}.

Definition administrator : Migration.caller :=
  {| Migration.uid := Some "u-1"; Migration.auth_email := Some "admin@nexar.ro" |}.

Definition draft_of_maria : Migration.listing :=
  {| Migration.listing_id := "l-1"; Migration.seller_id := Some "p-maria";
     Migration.status := Some "pending" |}.

Definition listing_by_ion : Migration.listing :=
  {| Migration.listing_id := "l-2"; Migration.seller_id := Some "p-ion";
     Migration.status := Some "pending" |}.

Definition print_nothing (j : Migration.jsonb) : string := "".
Definition first_id (tbl : list Migration.profile) : string := "p-1".
Definition no_constraint (tbl : list Migration.profile) (row : Migration.profile)
    : option Migration.sql_error := None.

(** A table that refuses every row for its user id, and an insert cut short
    by the statement timeout. *)
Definition duplicate_user : Migration.sql_error :=
  {| Migration.condition := "unique_violation";
     Migration.sqlerrm := "duplicate key value violates unique constraint" |}.


Definition user_taken (tbl : list Migration.profile) (row : Migration.profile)
    : option Migration.sql_error := Some duplicate_user.


End Examples.

(** ** The listing card and the seller button *)

Module Card.
Import Js HomePage.

(** What a card computes from its listing: the slot of the Premium badge,
    the two texts made with [toLocaleString], the seller badge and the stock
    badge.  The other parts of the markup show properties as they are. *)
Inductive slot : Type :=
| Badge
| Nothing
| Text (s : string).

Inductive seller_badge : Type := DealerVerificat | Privat.

Inductive stock_badge : Type := PeStoc | LaComanda.

Record card : Type := {
  premium : slot;
  price_text : string;
  seller : seller_badge;
  stock : option stock_badge;
  mileage_text : string
}.

Section Locale.

(** The host's number format and list separator. *)
Variable locale_number : Z -> string.
Variable list_separator : string.

(** The text [toLocaleString] gives; in an array, [undefined] and [null]
    give the empty text. *)
Fixpoint locale_text (v : value) : string :=
  match v with
  | VUndefined | VNull => ""
  | VBool b => if b then "true" else "false"
  | VNum n => locale_number n
  | VStr s => s
  | VArr _ elems => String.concat list_separator (List.map locale_text elems)
  end.

(** [v.toLocaleString()] *)
Definition toLocaleString (v : value) : result string :=
  match v with
  | VUndefined | VNull => Throw type_error
  | _ => Ok (locale_text v)
  end.

(** [{v && (...)}]: the element when [v] is truthy; otherwise React shows [v],
    which is nothing for [false], [null], [undefined] and the empty text, and
    the digit for zero. *)
Definition and_slot (v : value) : slot :=
  if truthy v then Badge
  else match v with
       | VNum _ => Text "0"
       | _ => Nothing
       end.

Definition ListingCard (listing : object) : result card :=
  rbind (toLocaleString (get listing "price")) (fun price =>
  rbind (toLocaleString (get listing "mileage")) (fun mileage =>
    Ok {| premium := and_slot (get listing "featured");
          price_text := "€" +:+ price;
          seller :=
            if strict_eq (get listing "sellerType") (VStr "dealer")
            then DealerVerificat else Privat;
          stock :=
            if strict_eq (get listing "sellerType") (VStr "dealer")
            then Some (if strict_eq (get listing "availability") (VStr "pe_stoc")
                       then PeStoc else LaComanda)
            else None;
          mileage_text := mileage +:+ " km" |})).

End Locale.

(** *** Clicks

    A click runs the handlers from the target outwards until one stops the
    propagation. *)
Record click : Type := {
  defaultPrevented : bool;
  propagationStopped : bool;
  navigated : list string
}.

Definition unhandled : click :=
  {| defaultPrevented := false; propagationStopped := false; navigated := [] |}.

Definition preventDefault (e : click) : click :=
  {| defaultPrevented := true; propagationStopped := propagationStopped e;
     navigated := navigated e |}.

Definition stopPropagation (e : click) : click :=
  {| defaultPrevented := defaultPrevented e; propagationStopped := true;
     navigated := navigated e |}.

Definition navigate (to : string) (e : click) : click :=
  {| defaultPrevented := defaultPrevented e; propagationStopped := propagationStopped e;
     navigated := navigated e ++ [to] |}.

Definition handleSellerClick (sellerId : string) (e : click) : click :=
  navigate ("/profil/" +:+ sellerId) (stopPropagation (preventDefault e)).

Fixpoint bubble (handlers : list (click -> click)) (e : click) : click :=
  match handlers with
  | [] => e
  | h :: outer =>
      let e' := h e in
      if propagationStopped e' then e' else bubble outer e'
  end.

End Card.

(** ** The policies on the other tables *)

Module Tables.
Import Migration.

(** [a OR b] *)
Definition sql_or (a b : option bool) : option bool :=
  match a, b with
  | Some true, _ | _, Some true => Some true
  | Some false, Some false => Some false
  | _, _ => None
  end.

(** The columns the policies read. *)
Record favorite : Type := { favorite_user_id : option string }.

Record message : Type := {
  sender_id : option string;
  receiver_id : option string
}.

Record review : Type := { reviewer_id : option string }.

Record storage_object : Type := {
  bucket_id : option string;
  object_name : option string
}.

(** A permissive policy on a table with rows of type [Row]. *)
Record rule (Row : Type) : Type := {
  rule_name : string;
  rule_cmd : command;
  rule_qual : caller -> Row -> option bool
}.
Arguments rule_name {Row} r.
Arguments rule_cmd {Row} r.
Arguments rule_qual {Row} r.

(** Row-level security over the policies of one table. *)
Definition allowed {Row} (rules : list (rule Row)) (who : caller) (c : command)
    (row : Row) : bool :=
  existsb (fun r => command_eqb (rule_cmd r) c && holds (rule_qual r who row)) rules.

(** Step 4. *)
Definition on_profiles : list (rule profile) :=
  [ {| rule_name := "profiles_select_all"; rule_cmd := SELECT;
       rule_qual := fun _ _ => Some true |};
    {| rule_name := "profiles_insert_own"; rule_cmd := INSERT;
       rule_qual := fun who p => sql_eq (uid who) (user_id p) |};
    {| rule_name := "profiles_update_own"; rule_cmd := UPDATE;
       rule_qual := fun who p => sql_eq (uid who) (user_id p) |} ].

(** Step 6. *)
Definition on_favorites : list (rule favorite) :=
  [ {| rule_name := "favorites_select_own"; rule_cmd := SELECT;
       rule_qual := fun who f => sql_eq (uid who) (favorite_user_id f) |};
    {| rule_name := "favorites_insert_own"; rule_cmd := INSERT;
       rule_qual := fun who f => sql_eq (uid who) (favorite_user_id f) |};
    {| rule_name := "favorites_delete_own"; rule_cmd := DELETE;
       rule_qual := fun who f => sql_eq (uid who) (favorite_user_id f) |} ].

(** Step 7. *)
Definition on_messages : list (rule message) :=
  [ {| rule_name := "messages_select_own"; rule_cmd := SELECT;
       rule_qual := fun who m =>
         sql_or (sql_eq (uid who) (sender_id m)) (sql_eq (uid who) (receiver_id m)) |};
    {| rule_name := "messages_insert_own"; rule_cmd := INSERT;
       rule_qual := fun who m => sql_eq (uid who) (sender_id m) |} ].

(** Step 8. *)
Definition on_reviews : list (rule review) :=
  [ {| rule_name := "reviews_select_all"; rule_cmd := SELECT;
       rule_qual := fun _ _ => Some true |};
    {| rule_name := "reviews_insert_own"; rule_cmd := INSERT;
       rule_qual := fun who r => sql_eq (uid who) (reviewer_id r) |} ].

Section Storage.

(** [storage.foldername] of the storage schema: the folders of an object
    name. *)
Variable foldername : string -> list string.

(** [(storage.foldername(name))[1]] *)
Definition first_folder (name : option string) : option string :=
  name ≫= fun n => head (foldername n).

(** Step 14. *)
Definition on_storage_objects : list (rule storage_object) :=
  [ {| rule_name := "storage_select_listing_images"; rule_cmd := SELECT;
       rule_qual := fun _ o => sql_eq (bucket_id o) (Some "listing-images") |};
    {| rule_name := "storage_select_profile_images"; rule_cmd := SELECT;
       rule_qual := fun _ o => sql_eq (bucket_id o) (Some "profile-images") |};
    {| rule_name := "storage_insert_listing_images"; rule_cmd := INSERT;
       rule_qual := fun who o =>
         sql_and (sql_eq (bucket_id o) (Some "listing-images")) (is_not_null (uid who)) |};
    {| rule_name := "storage_insert_profile_images"; rule_cmd := INSERT;
       rule_qual := fun who o =>
         sql_and (sql_eq (bucket_id o) (Some "profile-images")) (is_not_null (uid who)) |};
    {| rule_name := "storage_delete_listing_images"; rule_cmd := DELETE;
       rule_qual := fun who o =>
         sql_and (sql_eq (bucket_id o) (Some "listing-images"))
                 (sql_eq (uid who) (first_folder (object_name o))) |};
    {| rule_name := "storage_delete_profile_images"; rule_cmd := DELETE;
       rule_qual := fun who o =>
         sql_and (sql_eq (bucket_id o) (Some "profile-images"))
                 (sql_eq (uid who) (first_folder (object_name o))) |} ].

End Storage.

End Tables.

(** ** Steps 16 and 17 of the migration *)

Module Repair.
Import Migration.

Section Steps.

Variable default_id : list profile -> string.
Variable violation : list profile -> profile -> option sql_error.

(** The defaults of the two columns step 16 leaves out. *)
Variable default_phone : option string.
Variable default_location : option string.

(** [id IN (SELECT user_id FROM profiles WHERE user_id IS NOT NULL)] *)
Definition has_profile (tbl : list profile) (u : auth_user) : bool :=
  existsb (fun p => holds (sql_eq (user_id p) (Some (id u)))) tbl.

(** The query of the loop, read once before the first insert. *)
Definition users_without_profile (db : database) : list auth_user :=
  List.filter (fun u => negb (has_profile (profiles db) u)) (users db).

(** The row of the VALUES list of step 16. *)
Definition missing_profile (u : auth_user) (tbl : list profile) : profile :=
  {| profile_id := default_id tbl;
     user_id := Some (id u);
     name := split_part_at_1 (users_email u);
     email := users_email u;
     phone := default_phone;
     location := default_location;
     seller_type := Some "individual";
     is_admin := sql_eq (users_email u) (Some "admin@nexar.ro");
     verified := Some false |}.

(** [RAISE NOTICE 'Created missing profile for user %', u.email] *)
Definition notice (u : auth_user) : string :=
  "Created missing profile for user " +:+ default "<NULL>" (users_email u).

(** The loop: an insert that fails ends the block with its error. *)
Fixpoint create_missing (us : list auth_user) (tbl : list profile)
    (notices : list string) : list profile * list string + sql_error :=
  match us with
  | [] => inl (tbl, notices)
  | u :: rest =>
      match insert_profile violation (missing_profile u tbl) tbl with
      | inl tbl' => create_missing rest tbl' (notices ++ [notice u])
      | inr e => inr e
      end
  end.

(** Step 16. *)
Definition repair_profiles (db : database) : database * list string + sql_error :=
  match create_missing (users_without_profile db) (profiles db) [] with
  | inl (tbl, notices) =>
      inl ({| users := users db; profiles := tbl; warnings := warnings db |}, notices)
  | inr e => inr e
  end.

End Steps.

(** Step 17: [UPDATE profiles SET is_admin = true WHERE email = 'admin@nexar.ro']. *)
Definition update_admin (tbl : list profile) : list profile :=
  (fun p =>
     if holds (sql_eq (email p) (Some "admin@nexar.ro"))
     then {| profile_id := profile_id p; user_id := user_id p; name := name p;
             email := email p; phone := phone p; location := location p;
             seller_type := seller_type p; is_admin := Some true;
             verified := verified p |}
     else p) <$> tbl.

End Repair.

(** ** The availability migration *)

Module Availability.
Import Migration.

(** The table [listings] as this migration sees it: whether the column and
    the constraint it adds are there, and for each row the seller type and the
    availability (NULL in every row while the column is not there). *)
Record row : Type := {
  row_seller_type : option string;
  row_availability : option string
}.

Record listings_table : Type := {
  has_availability : bool;
  has_availability_check : bool;
  rows : list row
}.

(** [a IS NULL] *)
Definition is_null {A} (a : option A) : option bool :=
  Some (match a with Some _ => false | None => true end).

(** [CHECK (availability IN ('pe_stoc', 'la_comanda'))]: a row passes unless
    the condition is false. *)
Definition listings_availability_check (r : row) : bool :=
  match row_availability r with
  | None => true
  | Some v => String.eqb v "pe_stoc" || String.eqb v "la_comanda"
  end.

(** The DO block: when the column is not there, it is added with its default,
    which every row takes, and the constraint with it. *)
Definition add_column (t : listings_table) : listings_table :=
  if has_availability t then t
  else {| has_availability := true;
          has_availability_check := true;
          rows := (fun r => {| row_seller_type := row_seller_type r;
                               row_availability := Some "pe_stoc" |}) <$> rows t |}.

(** [UPDATE listings SET availability = 'pe_stoc'
     WHERE seller_type = 'dealer' AND availability IS NULL] *)
Definition backfill_dealers (t : listings_table) : listings_table :=
  {| has_availability := has_availability t;
     has_availability_check := has_availability_check t;
     rows := (fun r =>
                if holds (sql_and (sql_eq (row_seller_type r) (Some "dealer"))
                                  (is_null (row_availability r)))
                then {| row_seller_type := row_seller_type r;
                        row_availability := Some "pe_stoc" |}
                else r) <$> rows t |}.

Definition add_availability (t : listings_table) : listings_table :=
  backfill_dealers (add_column t).

End Availability.

(** ** More sample inputs *)

Module MoreExamples.
Import Js HomePage Examples.

(** A data source without featured listings, and one whose featured query
    is out of reach. *)
Definition source_no_featured (f : option filters) : response :=
  match f with
  | None => Resolved (Some (moto <$> [1; 2; 3]%Z)) None
  | Some _ => Resolved None None
  end.

Definition source_featured_down (f : option filters) : response :=
  match f with
  | None => Resolved (Some (moto <$> [1; 2; 3]%Z)) None
  | Some _ => Rejected unreachable
  end.

(** A data source with two featured listings among three. *)
Definition source_small (f : option filters) : response :=
  match f with
  | None => Resolved (Some (moto <$> [1; 2; 3]%Z)) None
  | Some _ => Resolved (Some (moto <$> [1; 2]%Z)) None
  end.

Definition display_of_ion : object :=
  match formatListing listing_of_ion with
  | Ok d => d
  | Throw _ => ∅
  end.

(** A dealer's row whose featured column holds a zero and whose availability
    is not set. *)
Definition bike : object :=
  {[ "id" := VStr "b7"; "price" := VNum 12500; "mileage" := VNum 3000;
     "seller_type" := VStr "dealer"; "featured" := VNum 0 ]}.

Definition display_of_bike : object :=
  match formatListing bike with
  | Ok d => d
  | Throw _ => ∅
  end.

Definition ro_number (n : Z) : string :=
  if (n =? 12500)%Z then "12.500" else "3.000".

Definition card_of_bike : Card.card :=
  {| Card.premium := Card.Nothing; Card.price_text := "€12.500";
     Card.seller := Card.DealerVerificat; Card.stock := Some Card.PeStoc;
     Card.mileage_text := "3.000 km" |}.

Definition visitor : Migration.caller :=
  {| Migration.uid := None; Migration.auth_email := None |}.

(** An account without its profile, and the same after step 16. *)
Definition account_only : Migration.database :=
  {| Migration.users := [admin_signup]; Migration.profiles := [];
     Migration.warnings := [] |}.

Definition account_repaired : Migration.database :=
  {| Migration.users := [admin_signup];
     Migration.profiles := [Repair.missing_profile first_id None None admin_signup []];
     Migration.warnings := [] |}.

End MoreExamples.

(** * Properties of the landing page *)

Module HomePageFacts.
Import Js HomePage Examples.

(** ** Strings *)

Lemma append_cons (c : ascii) (t u : string) :
  String c t +:+ u = String c (t +:+ u).
Proof. reflexivity. Qed.

Lemma append_nil (u : string) : EmptyString +:+ u = u.
Proof. reflexivity. Qed.

Lemma prefix_spec (t s : string) :
  String.prefix t s = true <-> exists post, s = t +:+ post.
Proof.
  revert s; induction t as [|c t IH]; intros s.
  - split; [intros _; exists s; reflexivity | intros _; destruct s; reflexivity].
  - destruct s as [|d s]; simpl.
    + split; [discriminate | intros [post H]; discriminate].
    + setoid_rewrite append_cons.
      destruct (Ascii.ascii_dec c d) as [->|Hne].
      * rewrite IH. split; intros [post H]; exists post; congruence.
      * split; [discriminate | intros [post H]; congruence].
Qed.

Lemma includes_spec (s t : string) :
  includes s t = true <-> exists pre post, s = pre +:+ t +:+ post.
Proof.
  induction s as [|c s IH]; cbn [includes].
  - rewrite orb_false_r, prefix_spec. split.
    + intros [post H]. exists EmptyString, post. exact H.
    + intros [pre [post H]]. destruct pre; [exists post; exact H|discriminate].
  - rewrite orb_true_iff, IH, prefix_spec. split.
    + intros [[post H]|[pre [post H]]].
      * exists EmptyString, post. exact H.
      * exists (String c pre), post. rewrite append_cons. congruence.
    + intros [[|d pre] [post H]].
      * left. exists post. exact H.
      * right. exists pre, post. rewrite append_cons in H. congruence.
Qed.

Lemma opt_includes_spec (e : error_obj) (t : string) :
  opt_includes (message e) t = true <-> contains e t.
Proof.
  unfold contains. destruct (message e) as [s|]; simpl.
  - rewrite includes_spec. split.
    + intros [pre [post H]]. exists s, pre, post. auto.
    + intros [s' [pre [post [H1 H2]]]]. exists pre, post. congruence.
  - split; [discriminate | intros [s [pre [post [H _]]]]; discriminate].
Qed.

Example includes_examples :
  includes "Failed to fetch" "fetch" = true /\
  includes "network unreachable" "network" = true /\
  includes "Network down" "network" = false /\
  includes "permission denied" "fetch" = false /\
  includes "" "" = true.
Proof. repeat split. Qed.

(** ** formatListing *)

Example cover_image_examples :
  cover_image {[ "images" := VArr 0 [VStr "a.jpg"; VStr "b.jpg"] ]} = Ok (VStr "a.jpg") /\
  cover_image {[ "images" := VArr 0 [] ]} = Ok (VStr fallbackImage) /\
  cover_image {[ "images" := VNull ]} = Ok (VStr fallbackImage) /\
  cover_image ∅ = Ok (VStr fallbackImage).
Proof. repeat split. Qed.

(** Without the guard the read of [length] would throw. *)
Example length_of_null : length_of VNull = Throw type_error.
Proof. reflexivity. Qed.

Lemma truthy_missing (listing : object) (k : string) :
  missing listing k -> truthy (get listing k) = false.
Proof. by intros [-> | ->]. Qed.

Lemma missing_absent (listing : object) (k : string) :
  listing !! k = None -> missing listing k.
Proof. intros H. left. unfold get. by rewrite H. Qed.

Lemma or_else_missing (listing : object) (k : string) (v : value) :
  missing listing k -> or_else (get listing k) v = v.
Proof. intros H. unfold or_else. by rewrite truthy_missing. Qed.

Lemma or_else_twice (a b : value) : or_else (or_else a b) b = or_else a b.
Proof.
  unfold or_else. destruct (truthy a) eqn:Ha.
  - by rewrite Ha.
  - by destruct (truthy b).
Qed.

Lemma strict_eq_refl (a : value) : strict_eq a a = true.
Proof.
  destruct a; simpl; try reflexivity.
  - by destruct b.
  - apply Z.eqb_refl.
  - apply String.eqb_refl.
  - apply Nat.eqb_refl.
Qed.

(** The guard of the conditional keeps [length] and [[0]] away from
    [undefined] and [null]: the cover image is always a value. *)
Lemma cover_image_ok (listing : object) : exists image, cover_image listing = Ok image.
Proof.
  unfold cover_image.
  destruct (get listing "images") as [| |b|n|s|ref elems]; simpl; eauto.
  - destruct b; simpl; eauto.
  - destruct (negb (n =? 0)%Z); simpl; eauto.
  - destruct s as [|c s]; simpl; eauto.
  - destruct elems; simpl; eauto.
Qed.

Lemma cover_image_fallback (listing : object) :
  missing listing "images" \/ empty_array (get listing "images") ->
  cover_image listing = Ok (VStr fallbackImage).
Proof.
  unfold cover_image. intros [H | [ref H]].
  - by rewrite truthy_missing.
  - by rewrite H.
Qed.

Lemma formatListing_inv (listing d : object) :
  formatListing listing = Ok d ->
  exists image,
    cover_image listing = Ok image /\
    d = list_to_map
      [ ("id", get listing "id");
        ("title", get listing "title");
        ("price", get listing "price");
        ("year", get listing "year");
        ("mileage", get listing "mileage");
        ("location", get listing "location");
        ("image", image);
        ("seller", get listing "seller_name");
        ("sellerId", get listing "seller_id");
        ("sellerType", get listing "seller_type");
        ("category", get listing "category");
        ("brand", get listing "brand");
        ("model", get listing "model");
        ("featured", or_else (get listing "featured") (VBool false));
        ("availability", or_else (get listing "availability") (VStr "pe_stoc")) ].
Proof.
  unfold formatListing. destruct (cover_image listing) as [image|e]; cbn [rbind].
  - intros [= <-]. by exists image.
  - discriminate.
Qed.

Lemma formatListing_ok (listing : object) : exists d, formatListing listing = Ok d.
Proof.
  destruct (cover_image_ok listing) as [image H].
  unfold formatListing. rewrite H. cbn [rbind]. eauto.
Qed.

(** Reading a property of an object built by a literal. *)
Lemma lookup_literal (entries : list (string * value)) (k : string) :
  (list_to_map entries : object) !! k = own_property k entries.
Proof.
  induction entries as [|[k' v] rest IH]; simpl.
  - apply lookup_empty.
  - destruct (String.eqb_spec k' k) as [->|Hne].
    + apply lookup_insert_eq.
    + by rewrite lookup_insert_ne.
Qed.

Lemma get_literal (entries : list (string * value)) (d : object) (k : string) :
  d = list_to_map entries -> get d k = default VUndefined (own_property k entries).
Proof. intros ->. unfold get. by rewrite lookup_literal. Qed.

Ltac read_display :=
  erewrite get_literal by reflexivity;
  cbn [own_property String.eqb Ascii.eqb Bool.eqb default from_option id];
  try reflexivity.

Lemma formatListing_id (listing d : object) :
  formatListing listing = Ok d -> get d "id" = get listing "id".
Proof. intros (image & _ & ->)%formatListing_inv. read_display. Qed.

(** C2.  [formatListing] returns a display record for every raw record,
    and the record has the fallback image when [images] is missing or an
    empty array, ["pe_stoc"] when [availability] is missing, and [false]
    when [featured] is missing. *)
Theorem formatListing_total (listing : object) :
  exists d,
    formatListing listing = Ok d /\
    (missing listing "images" \/ empty_array (get listing "images") ->
     get d "image" = VStr fallbackImage) /\
    (missing listing "availability" -> get d "availability" = VStr "pe_stoc") /\
    (missing listing "featured" -> get d "featured" = VBool false).
Proof.
  destruct (formatListing_ok listing) as [d Hd].
  exists d. split; [exact Hd|].
  apply formatListing_inv in Hd as (image & Himage & ->).
  split; [|split].
  - intros H. rewrite (cover_image_fallback _ H) in Himage.
    injection Himage as <-. read_display.
  - intros H. read_display. by apply or_else_missing.
  - intros H. read_display. by apply or_else_missing.
Qed.

(** C3, as stated, fails: formatting the display record of [listing_of_ion]
    again gives a different record, the seller is lost. *)
Lemma formatListing_not_idempotent :
  exists d d',
    formatListing listing_of_ion = Ok d /\ formatListing d = Ok d' /\ d' <> d /\
    get d "seller" = VStr "Ion" /\ get d' "seller" = VUndefined.
Proof.
  destruct (formatListing_ok listing_of_ion) as [d Hd].
  destruct (formatListing_ok d) as [d' Hd'].
  exists d, d'.
  assert (Hs : get d "seller" = VStr "Ion").
  { apply formatListing_inv in Hd as (image & _ & ->). read_display. }
  assert (Hs' : get d' "seller" = VUndefined).
  { apply formatListing_inv in Hd' as (image' & _ & ->).
    apply formatListing_inv in Hd as (image & _ & Hd).
    read_display. rewrite Hd. read_display. }
  repeat split; try assumption.
  intros ->. rewrite Hs in Hs'. discriminate.
Qed.

(** C3, amended.  Formatting a display record again keeps id, title, price,
    year, mileage, location, category, brand, model, featured and
    availability, and resets the image to the fallback and seller, sellerId
    and sellerType to [undefined]; the two records are equal exactly when the
    first already has these four values. *)
Theorem formatListing_twice (listing : object) :
  exists d d',
    formatListing listing = Ok d /\ formatListing d = Ok d' /\
    Forall (fun k => get d' k = get d k)
      ["id"; "title"; "price"; "year"; "mileage"; "location"; "category";
       "brand"; "model"; "featured"; "availability"] /\
    get d' "image" = VStr fallbackImage /\
    get d' "seller" = VUndefined /\
    get d' "sellerId" = VUndefined /\
    get d' "sellerType" = VUndefined /\
    (d' = d <->
     get d "image" = VStr fallbackImage /\ get d "seller" = VUndefined /\
     get d "sellerId" = VUndefined /\ get d "sellerType" = VUndefined).
Proof.
  destruct (formatListing_ok listing) as [d Hd].
  destruct (formatListing_ok d) as [d' Hd'].
  exists d, d'. split; [exact Hd|]. split; [exact Hd'|].
  apply formatListing_inv in Hd' as (image' & Himage' & Hd').
  apply formatListing_inv in Hd as (image & Himage & Hd).
  pose proof (fun k => get_literal _ d k Hd) as G.
  assert (Himg : missing d "images") by (left; rewrite G; reflexivity).
  rewrite (cover_image_fallback d (or_introl Himg)) in Himage'.
  injection Himage' as <-.
  pose proof (G "id") as Gid. pose proof (G "title") as Gtitle.
  pose proof (G "price") as Gprice. pose proof (G "year") as Gyear.
  pose proof (G "mileage") as Gmileage. pose proof (G "location") as Glocation.
  pose proof (G "category") as Gcategory. pose proof (G "brand") as Gbrand.
  pose proof (G "model") as Gmodel. pose proof (G "featured") as Gfeatured.
  pose proof (G "availability") as Gavailability.
  pose proof (G "seller_name") as Gsn. pose proof (G "seller_id") as Gsi.
  pose proof (G "seller_type") as Gst.
  pose proof (G "image") as Gi. pose proof (G "seller") as G1.
  pose proof (G "sellerId") as G2. pose proof (G "sellerType") as G3.
  cbn [own_property String.eqb Ascii.eqb Bool.eqb default from_option id] in *.
  clear G.
  assert (Hfeat : or_else (get d "featured") (VBool false) = get d "featured")
    by (rewrite Gfeatured; apply or_else_twice).
  assert (Hav : or_else (get d "availability") (VStr "pe_stoc") = get d "availability")
    by (rewrite Gavailability; apply or_else_twice).
  rewrite Hfeat, Hav, Gsn, Gsi, Gst in Hd'.
  pose proof (fun k => get_literal _ d' k Hd') as G'.
  split.
  { repeat constructor; rewrite G'; reflexivity. }
  repeat (split; [rewrite G'; reflexivity|]).
  split.
  - intros E. rewrite <- E. repeat split; rewrite G'; reflexivity.
  - intros (Ei & E1 & E2 & E3).
    rewrite Hd' at 1. rewrite Hd at 12.
    rewrite Gid, Gtitle, Gprice, Gyear, Gmileage, Glocation, Gcategory, Gbrand,
      Gmodel, Gfeatured, Gavailability.
    congruence.
Qed.

(** ** The two fetches *)

Lemma map_result_spec {A B} (f : A -> result B) (xs : list A) (ys : list B) :
  map_result f xs = Ok ys <-> Forall2 (fun x y => f x = Ok y) xs ys.
Proof.
  revert ys; induction xs as [|x xs IH]; intros ys; simpl.
  - split; [intros [= <-]; constructor | by inversion 1].
  - split.
    + destruct (f x) as [y|e] eqn:Hx; [|discriminate]. simpl.
      destruct (map_result f xs) as [ys'|e]; [|discriminate]. simpl.
      intros [= <-]. constructor; [exact Hx | by apply IH].
    + inversion 1 as [|? y ? ys' Hx Hrest]; subst.
      rewrite Hx. simpl. apply IH in Hrest. by rewrite Hrest.
Qed.

Lemma map_result_total {A B} (f : A -> result B) (xs : list A) :
  (forall x, exists y, f x = Ok y) -> exists ys, map_result f xs = Ok ys.
Proof.
  intros Hf. induction xs as [|x xs [ys IH]]; simpl; [by eexists|].
  destruct (Hf x) as [y ->]. rewrite IH. simpl. by eexists.
Qed.

Section Fetches.

Variable getAll : option filters -> response.

(** The run of [loadListings] when both fetches succeed. *)
Lemma loadListings_success (s : state) (featuredData recentData : option (list object)) :
  getAll (Some {| featured := Some true; category := None |})
    = Resolved featuredData None ->
  getAll None = Resolved recentData None ->
  exists formattedFeatured formattedRecent,
    map_result formatListing (take 4 (default [] featuredData)) = Ok formattedFeatured /\
    map_result formatListing
      (take 8
         (List.filter
            (fun listing =>
               negb (existsb (fun f => strict_eq (get f "id") (get listing "id"))
                       formattedFeatured))
            (default [] recentData))) = Ok formattedRecent /\
    loadListings getAll s =
      {| featuredListings := formattedFeatured; recentListings := formattedRecent;
         isLoading := false; error := None; networkError := None |}.
Proof.
  intros Hf Hr.
  destruct (map_result_total formatListing (take 4 (default [] featuredData))
              formatListing_ok) as [ff Hff].
  destruct (map_result_total formatListing
              (take 8
                 (List.filter
                    (fun listing =>
                       negb (existsb (fun f => strict_eq (get f "id") (get listing "id"))
                               ff))
                    (default [] recentData)))
              formatListing_ok) as [fr Hfr].
  exists ff, fr. split; [exact Hff|]. split; [exact Hfr|].
  unfold loadListings, try_catch_finally, bind.
  rewrite Hf, Hr. cbn -[map_result take List.filter formatListing].
  rewrite Hff. cbn -[map_result take List.filter formatListing].
  rewrite Hfr. reflexivity.
Qed.

(** The run of [handleCategoryClick] when its fetch succeeds. *)
Lemma handleCategoryClick_success (category : string) (s : state)
    (data : option (list object)) :
  getAll (Some {| featured := None; category := Some category |}) = Resolved data None ->
  exists formattedListings,
    map_result formatListing (default [] data) = Ok formattedListings /\
    handleCategoryClick getAll category s =
      {| featuredListings := []; recentListings := formattedListings;
         isLoading := false; error := None; networkError := None |}.
Proof.
  intros Hc.
  destruct (map_result_total formatListing (default [] data) formatListing_ok)
    as [fl Hfl].
  exists fl. split; [exact Hfl|].
  unfold handleCategoryClick, try_catch_finally, bind.
  rewrite Hc. cbn -[map_result formatListing].
  rewrite Hfl. reflexivity.
Qed.

(** The run of either fetch when it meets a failure: the lists stay, the
    loading flag is down, and the failure is filed under one of the two error
    cells. *)
Lemma run_failure (f : fetch) (s : state) (e : error_obj) :
  fetch_failure getAll f = Some e ->
  exists c m,
    run getAll f s =
      {| featuredListings := featuredListings s; recentListings := recentListings s;
         isLoading := false;
         error := if looks_like_network e then None else Some (String c m);
         networkError := if looks_like_network e then Some e else None |}.
Proof.
  destruct f as [|category]; unfold fetch_failure, failure, run.
  - unfold loadListings, try_catch_finally, bind.
    destruct (getAll (Some {| featured := Some true; category := None |}))
      as [fd [e1|]|e1].
    + intros [= ->]. cbn. destruct (looks_like_network e); cbn;
        [by exists "x"%char, EmptyString | by eexists _, _].
    + destruct (getAll None) as [rd [e2|]|e2]; [| discriminate |].
      * intros [= ->]. cbn. destruct (looks_like_network e); cbn;
        [by exists "x"%char, EmptyString | by eexists _, _].
      * intros [= ->]. cbn. destruct (looks_like_network e); cbn;
        [by exists "x"%char, EmptyString | by eexists _, _].
    + intros [= ->]. cbn. destruct (looks_like_network e); cbn;
        [by exists "x"%char, EmptyString | by eexists _, _].
  - unfold handleCategoryClick, try_catch_finally, bind.
    destruct (getAll (Some {| featured := None; category := Some category |}))
      as [d [e1|]|e1]; [| discriminate |].
    + intros [= ->]. cbn. destruct (looks_like_network e); cbn;
        [by exists "x"%char, EmptyString | by eexists _, _].
    + intros [= ->]. cbn. destruct (looks_like_network e); cbn;
        [by exists "x"%char, EmptyString | by eexists _, _].
Qed.

(** Five featured listings among twelve: the first four are shown as
    featured, and the fifth opens the recent list. *)
Example loaded_lists :
  (fun d => get d "id") <$> featuredListings loaded = VNum <$> [1; 2; 3; 4]%Z /\
  (fun d => get d "id") <$> recentListings loaded
    = VNum <$> [5; 6; 7; 8; 9; 10; 11; 12]%Z /\
  render (loadListings source_half loaded)
    = ErrorView "Nu s-au putut încărca anunțurile recente" /\
  render (loadListings source_down loaded) = NetworkErrorView unreachable.
Proof. repeat split; vm_compute; reflexivity. Qed.

(** C1.  When both fetches of [loadListings] succeed, the featured list it
    sets has at most 4 records, the recent list has at most 8, and no record
    of the recent list has the id of a record of the featured list. *)
Theorem loadListings_caps (s : state) (featuredData recentData : option (list object)) :
  getAll (Some {| featured := Some true; category := None |})
    = Resolved featuredData None ->
  getAll None = Resolved recentData None ->
  length (featuredListings (loadListings getAll s)) <= 4 /\
  length (recentListings (loadListings getAll s)) <= 8 /\
  forall r f,
    r ∈ recentListings (loadListings getAll s) ->
    f ∈ featuredListings (loadListings getAll s) ->
    strict_eq (get f "id") (get r "id") = false /\ get r "id" <> get f "id".
Proof.
  intros Hf Hr.
  destruct (loadListings_success s _ _ Hf Hr) as (ff & fr & Hff & Hfr & ->).
  cbn [featuredListings recentListings].
  apply map_result_spec in Hff, Hfr.
  split; [|split].
  - rewrite <- (Forall2_length _ _ _ Hff), length_take. lia.
  - rewrite <- (Forall2_length _ _ _ Hfr), length_take. lia.
  - intros r f [i Hi]%list_elem_of_lookup Hin.
    destruct (Forall2_lookup_r _ _ _ _ _ Hfr Hi) as (raw & Hraw & Hfmt).
    assert (Hraw' : raw ∈ take 8
              (List.filter
                 (fun listing =>
                    negb (existsb (fun f => strict_eq (get f "id") (get listing "id")) ff))
                 (default [] recentData)))
      by (apply list_elem_of_lookup; eauto).
    apply (subseteq_take 8), list_elem_of_In, filter_In in Hraw' as [_ Hnot].
    apply negb_true_iff in Hnot.
    rewrite (formatListing_id _ _ Hfmt).
    assert (Hne : strict_eq (get f "id") (get raw "id") = false).
    { destruct (strict_eq (get f "id") (get raw "id")) eqn:E; [|reflexivity].
      rewrite <- Hnot. symmetry. apply existsb_exists.
      exists f. split; [by apply list_elem_of_In | exact E]. }
    split; [exact Hne|].
    intros Heq. rewrite Heq, strict_eq_refl in Hne. discriminate.
Qed.

(** C4.  A failure whose message contains "network" puts the page in the
    network-error state and not in the application-error state; a failure
    whose message contains neither "fetch" nor "network" puts it in the
    application-error state and not in the network-error state. *)
Theorem failure_classification (f : fetch) (s : state) (e : error_obj) :
  fetch_failure getAll f = Some e ->
  (contains e "network" ->
   networkError (run getAll f s) = Some e /\
   error (run getAll f s) = None /\
   render (run getAll f s) = NetworkErrorView e) /\
  (~ contains e "fetch" -> ~ contains e "network" ->
   networkError (run getAll f s) = None /\
   exists msg, error (run getAll f s) = Some msg /\
               render (run getAll f s) = ErrorView msg).
Proof.
  intros Hfail. destruct (run_failure f s e Hfail) as (c & m & ->).
  unfold render. cbn [networkError error isLoading].
  split.
  - intros Hnet%opt_includes_spec.
    assert (Hl : looks_like_network e = true)
      by (unfold looks_like_network; rewrite Hnet; apply orb_true_r).
    by rewrite Hl.
  - intros Hfetch Hnet.
    assert (Hl : looks_like_network e = false).
    { unfold looks_like_network. apply orb_false_iff. split.
      - destruct (opt_includes (message e) "fetch") eqn:E; [|reflexivity].
        by apply opt_includes_spec in E.
      - destruct (opt_includes (message e) "network") eqn:E; [|reflexivity].
        by apply opt_includes_spec in E. }
    rewrite Hl. split; [reflexivity|]. by exists (String c m).
Qed.

(** C5.  A category fetch that succeeds empties the featured list and sets
    the recent list to the formatted result, record for record, whatever the
    result and its featured flags. *)
Theorem category_replaces_lists (category : string) (s : state)
    (data : option (list object)) :
  getAll (Some {| featured := None; category := Some category |}) = Resolved data None ->
  featuredListings (handleCategoryClick getAll category s) = [] /\
  Forall2 (fun raw d => formatListing raw = Ok d)
    (default [] data) (recentListings (handleCategoryClick getAll category s)) /\
  length (recentListings (handleCategoryClick getAll category s))
    = length (default [] data).
Proof.
  intros Hc. destruct (handleCategoryClick_success category s data Hc) as (fl & Hfl & ->).
  cbn [featuredListings recentListings].
  apply map_result_spec in Hfl.
  split; [reflexivity|]. split; [exact Hfl|].
  symmetry. by eapply Forall2_length.
Qed.

(** C6.  When the featured fetch succeeds and the recent fetch fails,
    [loadListings] leaves both lists as they were. *)
Theorem recent_failure_keeps_lists (s : state) (featuredData : option (list object))
    (e : error_obj) :
  getAll (Some {| featured := Some true; category := None |})
    = Resolved featuredData None ->
  failure (getAll None) = Some e ->
  featuredListings (loadListings getAll s) = featuredListings s /\
  recentListings (loadListings getAll s) = recentListings s.
Proof.
  intros Hf Hr.
  assert (Hfail : fetch_failure getAll LoadListings = Some e)
    by (unfold fetch_failure; rewrite Hf; exact Hr).
  destruct (run_failure LoadListings s e Hfail) as (c & m & H).
  cbn [run] in H. by rewrite H.
Qed.

(** C10, amended.  When a category fetch fails, [handleCategoryClick] leaves
    both lists as they were; what it changes are the two error cells and the
    loading flag, which ends false. *)
Theorem category_failure_frame (category : string) (s : state) (e : error_obj) :
  failure (getAll (Some {| featured := None; category := Some category |})) = Some e ->
  featuredListings (handleCategoryClick getAll category s) = featuredListings s /\
  recentListings (handleCategoryClick getAll category s) = recentListings s /\
  isLoading (handleCategoryClick getAll category s) = false.
Proof.
  intros Hfail.
  destruct (run_failure (CategoryClick category) s e Hfail) as (c & m & H).
  cbn [run] in H. by rewrite H.
Qed.

End Fetches.

(** ** The properties at sample inputs *)

Lemma loadListings_caps_witness :
  source_up (Some {| featured := Some true; category := None |})
    = Resolved (Some (moto <$> [1; 2; 3; 4; 5]%Z)) None /\
  source_up None
    = Resolved (Some (moto <$> [1; 2; 3; 4; 5; 6; 7; 8; 9; 10; 11; 12]%Z)) None /\
  length (featuredListings (loadListings source_up initial)) <= 4 /\
  length (recentListings (loadListings source_up initial)) <= 8 /\
  forall r f,
    r ∈ recentListings (loadListings source_up initial) ->
    f ∈ featuredListings (loadListings source_up initial) ->
    strict_eq (get f "id") (get r "id") = false /\ get r "id" <> get f "id".
Proof.
  split; [reflexivity|]. split; [reflexivity|].
  apply (loadListings_caps source_up initial
           (Some (moto <$> [1; 2; 3; 4; 5]%Z))
           (Some (moto <$> [1; 2; 3; 4; 5; 6; 7; 8; 9; 10; 11; 12]%Z)));
    reflexivity.
Defined.

Lemma failure_classification_witness :
  fetch_failure source_down LoadListings = Some unreachable /\
  (contains unreachable "network" ->
   networkError (run source_down LoadListings initial) = Some unreachable /\
   error (run source_down LoadListings initial) = None /\
   render (run source_down LoadListings initial) = NetworkErrorView unreachable) /\
  (~ contains unreachable "fetch" -> ~ contains unreachable "network" ->
   networkError (run source_down LoadListings initial) = None /\
   exists msg, error (run source_down LoadListings initial) = Some msg /\
               render (run source_down LoadListings initial) = ErrorView msg).
Proof.
  split; [reflexivity|].
  apply (failure_classification source_down LoadListings initial unreachable).
  reflexivity.
Defined.

Lemma category_replaces_lists_witness :
  source_up (Some {| featured := None; category := Some "sport" |})
    = Resolved (Some (moto <$> [2; 7; 9]%Z)) None /\
  featuredListings (handleCategoryClick source_up "sport" loaded) = [] /\
  Forall2 (fun raw d => formatListing raw = Ok d)
    (default [] (Some (moto <$> [2; 7; 9]%Z)))
    (recentListings (handleCategoryClick source_up "sport" loaded)) /\
  length (recentListings (handleCategoryClick source_up "sport" loaded))
    = length (default [] (Some (moto <$> [2; 7; 9]%Z))).
Proof.
  split; [reflexivity|].
  apply (category_replaces_lists source_up "sport" loaded (Some (moto <$> [2; 7; 9]%Z))).
  reflexivity.
Defined.

Lemma recent_failure_keeps_lists_witness :
  source_half (Some {| featured := Some true; category := None |})
    = Resolved (Some (moto <$> [1; 2; 3; 4; 5]%Z)) None /\
  failure (source_half None) = Some {| message := Some "permission denied" |} /\
  featuredListings (loadListings source_half loaded) = featuredListings loaded /\
  recentListings (loadListings source_half loaded) = recentListings loaded.
Proof.
  split; [reflexivity|]. split; [reflexivity|].
  apply (recent_failure_keeps_lists source_half loaded
           (Some (moto <$> [1; 2; 3; 4; 5]%Z)) {| message := Some "permission denied" |});
    reflexivity.
Defined.

(** C10, as stated, fails: on the first render the loading flag is up, and a
    failed category fetch takes it down, so the error cells are not all that
    changes. *)
Lemma category_failure_changes_loading :
  failure (source_down (Some {| featured := None; category := Some "sport" |}))
    = Some unreachable /\
  ~ (featuredListings (handleCategoryClick source_down "sport" initial)
       = featuredListings initial /\
     recentListings (handleCategoryClick source_down "sport" initial)
       = recentListings initial /\
     isLoading (handleCategoryClick source_down "sport" initial) = isLoading initial).
Proof.
  split; [reflexivity|]. intros (_ & _ & H). vm_compute in H. discriminate.
Qed.

Lemma category_failure_frame_witness :
  failure (source_down (Some {| featured := None; category := Some "sport" |}))
    = Some unreachable /\
  featuredListings (handleCategoryClick source_down "sport" loaded)
    = featuredListings loaded /\
  recentListings (handleCategoryClick source_down "sport" loaded)
    = recentListings loaded /\
  isLoading (handleCategoryClick source_down "sport" loaded) = false.
Proof.
  split; [reflexivity|].
  apply (category_failure_frame source_down "sport" loaded unreachable).
  reflexivity.
Defined.

End HomePageFacts.

(** * Properties of the migration *)

Module MigrationFacts.
Import Migration Examples.

Lemma sql_eq_true (a : option string) (s : string) :
  sql_eq a (Some s) = Some true <-> a = Some s.
Proof.
  destruct a as [x|]; simpl; [|split; discriminate].
  destruct (String.eqb_spec x s) as [->|Hne]; split; congruence.
Qed.

Lemma holds_sql_eq (a : option string) (s : string) :
  holds (sql_eq a (Some s)) = true <-> a = Some s.
Proof.
  rewrite <- sql_eq_true. unfold holds.
  destruct (sql_eq a (Some s)) as [[|]|]; split; congruence.
Qed.

Section Provisioning.

Variable jsonb_out : jsonb -> string.
Variable default_id : list profile -> string.
Variable violation : list profile -> profile -> option sql_error.





(** C9.  The profile the trigger creates has [is_admin] true exactly when the
    account's email is ['admin@nexar.ro'], and [verified] false, whatever the
    signup metadata. *)
Theorem provisioned_flags (NEW : auth_user) (db db' : database)
    (r : trigger_result) (p : profile) :
  handle_new_user jsonb_out default_id violation NEW db = (db', r) ->
  profiles db' = profiles db ++ [p] ->
  (is_admin p = Some true <-> users_email NEW = Some "admin@nexar.ro") /\
  verified p = Some false.
Proof.
  unfold handle_new_user, insert_profile.
  destruct (violation (profiles db) (new_profile jsonb_out default_id NEW (profiles db)))
    as [e|].
  - destruct (when_others e); intros [= <- _]; cbn [profiles]; intros H;
      apply (f_equal length) in H; rewrite length_app in H; simpl in H; lia.
  - intros [= <- _]. cbn [profiles]. intros [= <-]%app_inv_head.
    cbn [new_profile is_admin verified]. split; [apply sql_eq_true | reflexivity].
Qed.

End Provisioning.

Example admin_signup_profile :
  new_profile print_nothing first_id admin_signup [] =
    {| profile_id := "p-1"; user_id := Some "u-1"; name := Some "Admin";
       email := Some "admin@nexar.ro"; phone := Some ""; location := Some "";
       seller_type := Some "individual"; is_admin := Some true;
       verified := Some false |}.
Proof. reflexivity. Qed.

(** Without metadata the name is the local part of the address. *)
Example bare_signup_profile :
  name (new_profile print_nothing first_id
          {| id := "u-2"; users_email := Some "ion@example.ro";
             raw_user_meta_data := None |} []) = Some "ion".
Proof. reflexivity. Qed.

Lemma provisioned_flags_witness :
  handle_new_user print_nothing first_id no_constraint admin_signup empty_database
    = ({| users := [];
          profiles := [new_profile print_nothing first_id admin_signup []];
          warnings := [] |}, Returns admin_signup) /\
  [new_profile print_nothing first_id admin_signup []]
    = profiles empty_database ++ [new_profile print_nothing first_id admin_signup []] /\
  (is_admin (new_profile print_nothing first_id admin_signup []) = Some true
   <-> users_email admin_signup = Some "admin@nexar.ro") /\
  verified (new_profile print_nothing first_id admin_signup []) = Some false.
Proof.
  split; [reflexivity|]. split; [reflexivity|].
  apply (provisioned_flags print_nothing first_id no_constraint admin_signup
           empty_database
           {| users := [];
              profiles := [new_profile print_nothing first_id admin_signup []];
              warnings := [] |}
           (Returns admin_signup)); reflexivity.
Defined.



(** A violated constraint is trapped: the account is there, without profile,
    and the warning is logged. *)
Example violation_is_logged :
  insert_auth_user print_nothing first_id user_taken admin_signup empty_database
    = inl {| users := [admin_signup]; profiles := [];
             warnings :=
               ["Failed to create profile for user u-1: " +:+
                "duplicate key value violates unique constraint"] |}.
Proof. reflexivity. Qed.

(** ** Policies on listings *)

Example policies_at_work :
  (permitted created_on_listings [profile_of_ion] administrator UPDATE draft_of_maria,
   permitted created_on_listings [profile_of_ion] ion UPDATE draft_of_maria,
   permitted created_on_listings [profile_of_ion] ion SELECT draft_of_maria,
   permitted created_on_listings [profile_of_ion] ion DELETE listing_by_ion)
    = (true, false, false, true).
Proof. reflexivity. Qed.

(** C8.  Under the policies the migration creates on listings, a caller
    whose email is ['admin@nexar.ro'] may select, update and delete every
    listing, owner or not; a caller with another email, or none, gets from the
    policies what an owner gets, and on SELECT the active listings. *)
Theorem admin_bypass (tbl : list profile) (who : caller) (l : listing) :
  (auth_email who = Some "admin@nexar.ro" ->
   permitted created_on_listings tbl who SELECT l = true /\
   permitted created_on_listings tbl who UPDATE l = true /\
   permitted created_on_listings tbl who DELETE l = true) /\
  (auth_email who <> Some "admin@nexar.ro" ->
   (permitted created_on_listings tbl who SELECT l = true <->
    status l = Some "active" \/ holds (own_listing tbl who l) = true) /\
   (permitted created_on_listings tbl who UPDATE l = true <->
    holds (own_listing tbl who l) = true) /\
   (permitted created_on_listings tbl who DELETE l = true <->
    holds (own_listing tbl who l) = true)).
Proof.
  unfold permitted.
  cbn [created_on_listings List.filter cmd command_eqb listings_select_active
       listings_select_own listings_insert_authenticated listings_update_own
       listings_delete_own admin_select_all_listings admin_update_all_listings
       admin_delete_all_listings existsb forallb permissive qual andb orb].
  unfold is_admin_email.
  split.
  - intros Hadmin%holds_sql_eq. rewrite Hadmin.
    repeat split; rewrite ?orb_true_r; reflexivity.
  - intros Hother.
    assert (Hno : holds (sql_eq (auth_email who) (Some "admin@nexar.ro")) = false).
    { destruct (holds _) eqn:E; [|reflexivity]. by apply holds_sql_eq in E. }
    rewrite Hno, !orb_false_r, !andb_true_r.
    split; [|split; reflexivity].
    rewrite orb_true_iff, holds_sql_eq. reflexivity.
Qed.

End MigrationFacts.

(** * More of the landing page *)

Module PageFacts.
Import Js HomePage Examples HomePageFacts.

Lemma map_result_inj {A B} (f : A -> result B) (xs : list A) (ys ys' : list B) :
  map_result f xs = Ok ys -> map_result f xs = Ok ys' -> ys = ys'.
Proof. congruence. Qed.

Lemma failure_none (r : response) :
  failure r = None -> exists data, r = Resolved data None.
Proof. destruct r as [data [e|]|e]; try discriminate. by exists data. Qed.

Section Runs.

Variable getAll : option filters -> response.

(** A fetch that meets no failure sets all five cells from the responses
    alone. *)
Lemma run_success (f : fetch) :
  fetch_failure getAll f = None ->
  exists featured recent,
    forall s,
      run getAll f s =
        {| featuredListings := featured; recentListings := recent;
           isLoading := false; error := None; networkError := None |}.
Proof.
  destruct f as [|category]; unfold fetch_failure; cbn [run].
  - destruct (failure (getAll (Some {| featured := Some true; category := None |})))
      eqn:Hf; [discriminate|].
    intros Hr.
    apply failure_none in Hf as [fd Hf]. apply failure_none in Hr as [rd Hr].
    destruct (loadListings_success getAll initial fd rd Hf Hr)
      as (ff & fr & Hff & Hfr & _).
    exists ff, fr. intros s.
    destruct (loadListings_success getAll s fd rd Hf Hr)
      as (ff' & fr' & Hff' & Hfr' & ->).
    assert (ff' = ff) as -> by congruence.
    assert (fr' = fr) as -> by congruence.
    reflexivity.
  - intros [d Hc]%failure_none.
    destruct (handleCategoryClick_success getAll category initial d Hc)
      as (fl & Hfl & _).
    exists [], fl. intros s.
    destruct (handleCategoryClick_success getAll category s d Hc)
      as (fl' & Hfl' & ->).
    assert (fl' = fl) as -> by congruence.
    reflexivity.
Qed.

(** X1.  Whatever the data source answers, a fetch leaves the loading flag
    false. *)
Theorem loading_always_ends (f : fetch) (s : state) :
  isLoading (run getAll f s) = false.
Proof.
  destruct (fetch_failure getAll f) as [e|] eqn:Hf.
  - destruct (run_failure getAll f s e Hf) as (c & m & ->). reflexivity.
  - destruct (run_success f Hf) as (fl & rl & H). by rewrite H.
Qed.

(** X2.  After a fetch the error text and the network error are never both
    set, and a fetch that meets no failure leaves neither, whatever they were
    before. *)
Theorem error_cells_exclusive (f : fetch) (s : state) :
  (error (run getAll f s) = None \/ networkError (run getAll f s) = None) /\
  (fetch_failure getAll f = None ->
   error (run getAll f s) = None /\ networkError (run getAll f s) = None).
Proof.
  destruct (fetch_failure getAll f) as [e|] eqn:Hf.
  - destruct (run_failure getAll f s e Hf) as (c & m & ->).
    cbn [error networkError]. split; [|discriminate].
    destruct (looks_like_network e); auto.
  - destruct (run_success f Hf) as (fl & rl & H). rewrite H.
    cbn. auto.
Qed.

(** The failure counterpart: the panel text does not depend on the state. *)
Lemma run_failure_uniform (f : fetch) (e : error_obj) :
  fetch_failure getAll f = Some e ->
  exists c m,
    forall s,
      run getAll f s =
        {| featuredListings := featuredListings s; recentListings := recentListings s;
           isLoading := false;
           error := if looks_like_network e then None else Some (String c m);
           networkError := if looks_like_network e then Some e else None |}.
Proof.
  destruct f as [|category]; unfold fetch_failure, failure, run.
  - unfold loadListings, try_catch_finally, bind.
    destruct (getAll (Some {| featured := Some true; category := None |}))
      as [fd [e1|]|e1].
    + intros [= ->]. cbn. destruct (looks_like_network e); cbn;
        [by exists "x"%char, EmptyString | by eexists _, _].
    + destruct (getAll None) as [rd [e2|]|e2]; [| discriminate |].
      * intros [= ->]. cbn. destruct (looks_like_network e); cbn;
          [by exists "x"%char, EmptyString | by eexists _, _].
      * intros [= ->]. cbn. destruct (looks_like_network e); cbn;
          [by exists "x"%char, EmptyString | by eexists _, _].
    + intros [= ->]. cbn. destruct (looks_like_network e); cbn;
        [by exists "x"%char, EmptyString | by eexists _, _].
  - unfold handleCategoryClick, try_catch_finally, bind.
    destruct (getAll (Some {| featured := None; category := Some category |}))
      as [d [e1|]|e1]; [| discriminate |].
    + intros [= ->]. cbn. destruct (looks_like_network e); cbn;
        [by exists "x"%char, EmptyString | by eexists _, _].
    + intros [= ->]. cbn. destruct (looks_like_network e); cbn;
        [by exists "x"%char, EmptyString | by eexists _, _].
Qed.

(** X3.  Running the same fetch again on the same answers changes nothing. *)
Theorem retry_is_idempotent (f : fetch) (s : state) :
  run getAll f (run getAll f s) = run getAll f s.
Proof.
  destruct (fetch_failure getAll f) as [e|] eqn:Hf.
  - destruct (run_failure_uniform f e Hf) as (c & m & H). by rewrite !H.
  - destruct (run_success f Hf) as (fl & rl & H). by rewrite !H.
Qed.

(** X4.  The state after a fetch that meets no failure does not depend on
    the state before it. *)
Theorem success_forgets_the_past (f : fetch) (s s' : state) :
  fetch_failure getAll f = None -> run getAll f s = run getAll f s'.
Proof. intros Hf. destruct (run_success f Hf) as (fl & rl & H). by rewrite !H. Qed.

(** X5.  A failed fetch sets the network error exactly when the message of
    the failure contains "fetch" or "network", and the error text exactly
    when it contains neither. *)
Theorem network_state_iff (f : fetch) (s : state) (e : error_obj) :
  fetch_failure getAll f = Some e ->
  (networkError (run getAll f s) = Some e <-> contains e "fetch" \/ contains e "network") /\
  (is_Some (error (run getAll f s)) <-> ~ (contains e "fetch" \/ contains e "network")).
Proof.
  intros Hf. destruct (run_failure getAll f s e Hf) as (c & m & ->).
  cbn [networkError error].
  rewrite <- !opt_includes_spec, <- orb_true_iff.
  fold (looks_like_network e).
  destruct (looks_like_network e); split; split; try done.
  all: try (by intros [? ?]).
  all: try (intros H; by destruct H).
  all: try (intros _; by eexists).
Qed.

End Runs.

(** X6.  When the featured fetch fails, [loadListings] does not depend on
    what the second query would answer. *)
Theorem featured_failure_skips_recent (getAll getAll' : option filters -> response)
    (s : state) (e : error_obj) :
  getAll' (Some {| featured := Some true; category := None |})
    = getAll (Some {| featured := Some true; category := None |}) ->
  failure (getAll (Some {| featured := Some true; category := None |})) = Some e ->
  loadListings getAll' s = loadListings getAll s.
Proof.
  intros Hsame Hf.
  unfold loadListings, try_catch_finally, bind. rewrite Hsame.
  destruct (getAll (Some {| featured := Some true; category := None |}))
    as [fd [e1|]|e1]; [| discriminate |]; cbn;
    destruct (looks_like_network e1); reflexivity.
Qed.

Lemma filter_sublist {A} (p : A -> bool) (l : list A) : List.filter p l `sublist_of` l.
Proof.
  induction l as [|x l IH]; simpl; [constructor|].
  destruct (p x); by constructor.
Qed.

Lemma filter_all {A} (p : A -> bool) (l : list A) :
  (forall x, p x = true) -> List.filter p l = l.
Proof.
  intros Hp. induction l as [|x l IH]; simpl; [reflexivity|].
  by rewrite Hp, IH.
Qed.

(** X7.  After a successful [loadListings] the featured list is the formatting
    of the first four records of the featured data, and the recent list is the
    formatting of a sublist of the recent data: order is kept and no record is
    repeated or invented. *)
Theorem shown_in_order (getAll : option filters -> response) (s : state)
    (featuredData recentData : option (list object)) :
  getAll (Some {| featured := Some true; category := None |})
    = Resolved featuredData None ->
  getAll None = Resolved recentData None ->
  Forall2 (fun raw d => formatListing raw = Ok d)
    (take 4 (default [] featuredData)) (featuredListings (loadListings getAll s)) /\
  exists shown,
    shown `sublist_of` default [] recentData /\
    Forall2 (fun raw d => formatListing raw = Ok d)
      shown (recentListings (loadListings getAll s)).
Proof.
  intros Hf Hr.
  destruct (loadListings_success getAll s _ _ Hf Hr) as (ff & fr & Hff & Hfr & ->).
  cbn [featuredListings recentListings].
  apply map_result_spec in Hff, Hfr.
  split; [exact Hff|].
  eexists. split; [|exact Hfr].
  etrans; [apply sublist_take | apply filter_sublist].
Qed.

(** X8.  When the featured query answers [null], the featured list is empty
    and the recent list is the formatting of the first eight records. *)
Theorem no_featured_no_exclusion (getAll : option filters -> response) (s : state)
    (recentData : option (list object)) :
  getAll (Some {| featured := Some true; category := None |}) = Resolved None None ->
  getAll None = Resolved recentData None ->
  featuredListings (loadListings getAll s) = [] /\
  Forall2 (fun raw d => formatListing raw = Ok d)
    (take 8 (default [] recentData)) (recentListings (loadListings getAll s)).
Proof.
  intros Hf Hr.
  destruct (loadListings_success getAll s _ _ Hf Hr) as (ff & fr & Hff & Hfr & ->).
  cbn [featuredListings recentListings].
  cbn in Hff. injection Hff as <-.
  rewrite filter_all in Hfr by reflexivity.
  apply map_result_spec in Hfr. by split.
Qed.

(** X9.  When the second query returns at most eight records, each of them
    is shown in the recent list unless its id is that of a featured record on
    display. *)
Theorem nothing_lost_below_cap (getAll : option filters -> response) (s : state)
    (featuredData recentData : option (list object)) :
  getAll (Some {| featured := Some true; category := None |})
    = Resolved featuredData None ->
  getAll None = Resolved recentData None ->
  length (default [] recentData) <= 8 ->
  forall raw, raw ∈ default [] recentData ->
    (exists d, d ∈ recentListings (loadListings getAll s) /\ formatListing raw = Ok d) \/
    (exists f, f ∈ featuredListings (loadListings getAll s) /\
               strict_eq (get f "id") (get raw "id") = true).
Proof.
  intros Hf Hr Hlen raw Hraw.
  destruct (loadListings_success getAll s _ _ Hf Hr) as (ff & fr & Hff & Hfr & ->).
  cbn [featuredListings recentListings].
  destruct (existsb (fun f => strict_eq (get f "id") (get raw "id")) ff) eqn:E.
  - right. apply existsb_exists in E as (f & Hin & Heq).
    exists f. split; [by apply list_elem_of_In | exact Heq].
  - left. apply map_result_spec in Hfr.
    rewrite take_ge in Hfr.
    2:{ etrans; [apply sublist_length, filter_sublist | exact Hlen]. }
    assert (Hin : raw ∈ List.filter
              (fun listing =>
                 negb (existsb (fun f => strict_eq (get f "id") (get listing "id")) ff))
              (default [] recentData)).
    { apply list_elem_of_In, filter_In. split; [by apply list_elem_of_In|]. by rewrite E. }
    apply list_elem_of_lookup in Hin as [i Hi].
    destruct (Forall2_lookup_l _ _ _ _ _ Hfr Hi) as (d & Hd & Hfmt).
    exists d. split; [by eapply list_elem_of_lookup_2 | exact Hfmt].
Qed.

(** X10.  A display record has the fifteen properties of the literal and no
    other: no further column of the row reaches the page. *)
Theorem display_record_keys (listing d : object) :
  formatListing listing = Ok d ->
  dom d = list_to_set
    ["id"; "title"; "price"; "year"; "mileage"; "location"; "image"; "seller";
     "sellerId"; "sellerType"; "category"; "brand"; "model"; "featured";
     "availability"].
Proof.
  intros (image & _ & ->)%formatListing_inv.
  by rewrite dom_list_to_map_L.
Qed.

(** X11.  In a display record [availability] is always truthy, [featured] is
    truthy or [false], and the image of a row with a non-empty array of images
    is its first element, whatever that element is. *)
Theorem display_flags (listing d : object) :
  formatListing listing = Ok d ->
  truthy (get d "availability") = true /\
  (truthy (get d "featured") = true \/ get d "featured" = VBool false) /\
  (forall ref x rest,
     get listing "images" = VArr ref (x :: rest) -> get d "image" = x).
Proof.
  intros (image & Himage & Hd)%formatListing_inv.
  pose proof (fun k => get_literal _ d k Hd) as G.
  rewrite !G. cbn [own_property String.eqb Ascii.eqb Bool.eqb default from_option id].
  unfold or_else. split; [|split].
  - by destruct (truthy (get listing "availability")) eqn:E.
  - destruct (truthy (get listing "featured")) eqn:E; auto.
  - intros ref x rest Himg. unfold cover_image in Himage. rewrite Himg in Himage.
    cbn [truthy rbind length_of index0] in Himage.
    replace (gt0 (Some (Z.of_nat (length (x :: rest))))) with true in Himage
      by (symmetry; apply Z.ltb_lt; cbn [length]; lia).
    congruence.
Qed.

End PageFacts.

Module CardFacts.
Import Js HomePage HomePageFacts Card.

Lemma strict_eq_str (v : value) (s : string) :
  strict_eq v (VStr s) = true <-> v = VStr s.
Proof.
  destruct v; simpl; try (split; [discriminate | intros [=]]).
  destruct (String.eqb_spec s0 s) as [->|Hne]; split; congruence.
Qed.

Section Locale.

Variable locale_number : Z -> string.
Variable list_separator : string.

Lemma toLocaleString_ok (v : value) :
  (exists t, toLocaleString locale_number list_separator v = Ok t) <->
  v <> VUndefined /\ v <> VNull.
Proof.
  destruct v; simpl; split.
  all: try (intros [t H]; discriminate).
  all: try (intros [? ?]; congruence).
  all: try (intros _; split; discriminate).
  all: intros _; by eexists.
Qed.

(** X12.  A card renders exactly when neither [price] nor [mileage] is
    [undefined] or [null]; otherwise [toLocaleString] throws. *)
Theorem ListingCard_needs_price_and_mileage (listing : object) :
  (exists c, ListingCard locale_number list_separator listing = Ok c) <->
  ~ missing listing "price" /\ ~ missing listing "mileage".
Proof.
  unfold ListingCard, missing.
  split.
  - intros [c H].
    destruct (toLocaleString _ _ (get listing "price")) as [p|] eqn:Hp; [|discriminate].
    destruct (toLocaleString _ _ (get listing "mileage")) as [m|] eqn:Hm; [|discriminate].
    assert (Hp' := proj1 (toLocaleString_ok _) (ex_intro _ p Hp)).
    assert (Hm' := proj1 (toLocaleString_ok _) (ex_intro _ m Hm)).
    tauto.
  - intros [Hp Hm].
    destruct (proj2 (toLocaleString_ok (get listing "price"))) as [p ->]; [tauto|].
    destruct (proj2 (toLocaleString_ok (get listing "mileage"))) as [m ->]; [tauto|].
    cbn [rbind]. by eexists.
Qed.

(** X13.  On the card of a formatted row the Premium slot is the badge or
    nothing, never a stray value; the stock badge is there exactly for dealers,
    and it reads in stock exactly when the row's availability is falsy or
    ["pe_stoc"]. *)
Theorem card_of_formatted (raw d : object) (c : card) :
  formatListing raw = Ok d ->
  ListingCard locale_number list_separator d = Ok c ->
  premium c = (if truthy (get raw "featured") then Badge else Nothing) /\
  (stock c = None <-> get raw "seller_type" <> VStr "dealer") /\
  (stock c = Some PeStoc <->
   get raw "seller_type" = VStr "dealer" /\
   (truthy (get raw "availability") = false \/ get raw "availability" = VStr "pe_stoc")).
Proof.
  intros (image & _ & Hd)%formatListing_inv.
  pose proof (fun k => get_literal _ d k Hd) as G.
  unfold ListingCard.
  destruct (toLocaleString _ _ (get d "price")) as [p|]; [|discriminate].
  destruct (toLocaleString _ _ (get d "mileage")) as [m|]; [|discriminate].
  cbn [rbind]. intros [= <-]. cbn [premium stock].
  rewrite !G. cbn [own_property String.eqb Ascii.eqb Bool.eqb default from_option id].
  split; [|split].
  - unfold and_slot, or_else. destruct (truthy (get raw "featured")) eqn:E.
    + by rewrite E.
    + reflexivity.
  - destruct (strict_eq (get raw "seller_type") (VStr "dealer")) eqn:E.
    + apply strict_eq_str in E. split; [discriminate | congruence].
    + split; [|reflexivity]. intros _ H. apply strict_eq_str in H. congruence.
  - destruct (strict_eq (get raw "seller_type") (VStr "dealer")) eqn:E.
    + apply strict_eq_str in E.
      unfold or_else. destruct (truthy (get raw "availability")) eqn:Ha.
      * destruct (strict_eq (get raw "availability") (VStr "pe_stoc")) eqn:Hs.
        -- apply strict_eq_str in Hs. split; auto.
        -- split; [discriminate|]. intros [_ [?|H]]; [discriminate|].
           apply strict_eq_str in H. congruence.
      * cbn. split; auto.
    + split; [discriminate|]. intros [H _]. apply strict_eq_str in H. congruence.
Qed.

End Locale.

(** X14.  A click on the seller button goes to the seller's profile, prevents
    the default action and reaches no handler further out, whatever those
    handlers are. *)
Theorem seller_click_stays_on_button (sellerId : string)
    (outer : list (click -> click)) (e : click) :
  bubble (handleSellerClick sellerId :: outer) e = handleSellerClick sellerId e /\
  defaultPrevented (handleSellerClick sellerId e) = true /\
  navigated (handleSellerClick sellerId e) = navigated e ++ ["/profil/" +:+ sellerId].
Proof. by repeat split. Qed.

End CardFacts.

(** * More of the migrations *)

Module PolicyFacts.
Import Migration MigrationFacts Repair Tables.

Ltac unfold_permitted :=
  unfold permitted;
  cbn [created_on_listings List.filter cmd command_eqb listings_select_active listings_select_own
       listings_insert_authenticated listings_update_own listings_delete_own
       admin_select_all_listings admin_update_all_listings admin_delete_all_listings
       existsb forallb permissive qual andb orb];
  unfold is_admin_email.

(** X15.  Under the policies the migration creates on listings a caller may
    insert a listing exactly when [auth.uid()] is not NULL, whatever the row's
    seller. *)
Theorem insert_needs_only_a_session (tbl : list profile) (who : caller) (l : listing) :
  permitted created_on_listings tbl who INSERT l = true <-> uid who <> None.
Proof.
  unfold_permitted.
  destruct (uid who); cbn; split; congruence.
Qed.

(** X16.  Under the policies the migration creates on listings a caller
    without a session reads exactly the active listings and may not insert,
    update or delete any. *)
Theorem anonymous_reads_active_only (tbl : list profile) (who : caller) (l : listing) :
  uid who = None -> auth_email who = None ->
  (permitted created_on_listings tbl who SELECT l = true <-> status l = Some "active") /\
  permitted created_on_listings tbl who INSERT l = false /\
  permitted created_on_listings tbl who UPDATE l = false /\
  permitted created_on_listings tbl who DELETE l = false.
Proof.
  intros Hu He. unfold_permitted. unfold own_listing.
  rewrite Hu, He. cbn.
  replace (holds (sql_and (Some false) (seller_id_in_own_profile tbl who l)))
    with false by (by destruct (seller_id_in_own_profile tbl who l) as [[|]|]).
  rewrite !orb_false_r, !andb_true_r. repeat split; try reflexivity.
  - by intros ?%holds_sql_eq.
  - by intros ?%holds_sql_eq.
Qed.




(** X18.  When a user has profiles of one id only, a listing is the caller's
    own exactly when its seller is a profile of the caller. *)
Theorem own_listing_one_profile (tbl : list profile) (who : caller) (l : listing)
    (u : string) :
  uid who = Some u ->
  (forall p q, p ∈ tbl -> q ∈ tbl -> user_id p = Some u -> user_id q = Some u ->
               profile_id p = profile_id q) ->
  (holds (own_listing tbl who l) = true <->
   exists p, p ∈ tbl /\ user_id p = Some u /\ seller_id l = Some (profile_id p)).
Proof.
  intros Hu Huniq. unfold own_listing, seller_id_in_own_profile. rewrite Hu. cbn [is_not_null].
  destruct (List.filter _ tbl) as [|p0 rest] eqn:Hf.
  - cbn. split; [discriminate|]. intros (p & Hp & Hpu & _).
    assert (Hin : In p (List.filter (fun p => holds (sql_eq (user_id p) (Some u))) tbl)).
    { apply filter_In. split; [by apply list_elem_of_In|]. by apply holds_sql_eq. }
    rewrite Hf in Hin. destruct Hin.
  - assert (Hp0 : In p0 (List.filter (fun p => holds (sql_eq (user_id p) (Some u))) tbl))
      by (rewrite Hf; left; reflexivity).
    apply filter_In in Hp0 as [Hp0 Hu0]. apply holds_sql_eq in Hu0.
    apply list_elem_of_In in Hp0.
    assert (Hand : forall c, holds (sql_and (Some true) c) = holds c)
      by (by intros [[|]|]).
    rewrite Hand, holds_sql_eq. split.
    + intros H. by exists p0.
    + intros (p & Hp & Hpu & ->). f_equal. by apply Huniq.
Qed.

Lemma create_after_error (ps : list policy) :
  foldl (fun cat p => cat ≫= create_policy p) None ps = None.
Proof. by induction ps. Qed.

Lemma create_policy_clash (p : policy) (catalog : list policy) :
  create_policy p catalog = None <->
  exists q, q ∈ catalog /\ policyname q = policyname p.
Proof.
  unfold create_policy.
  destruct (existsb _ catalog) eqn:E.
  - apply existsb_exists in E as (q & Hq & Hn%String.eqb_eq).
    split; [|reflexivity]. intros _. exists q. by rewrite list_elem_of_In.
  - split; [discriminate|]. intros (q & Hq & Hn).
    assert (existsb (fun q => String.eqb (policyname q) (policyname p)) catalog = true)
      by (apply existsb_exists; exists q; rewrite <- list_elem_of_In;
          split; [exact Hq | by apply String.eqb_eq]).
    congruence.
Qed.

Lemma create_all_free (ps catalog : list policy) :
  NoDup (policyname <$> ps) ->
  (forall q p, q ∈ catalog -> p ∈ ps -> policyname q <> policyname p) ->
  foldl (fun cat p => cat ≫= create_policy p) (Some catalog) ps = Some (catalog ++ ps).
Proof.
  revert catalog; induction ps as [|p ps IH]; intros catalog Hnd Hfree; cbn [foldl].
  - by rewrite app_nil_r.
  - cbn [fmap list_fmap] in Hnd. apply NoDup_cons in Hnd as [Hp Hnd].
    cbn [mbind option_bind].
    destruct (create_policy p catalog) as [cat|] eqn:Hc.
    + assert (cat = catalog ++ [p]) as ->.
      { unfold create_policy in Hc. destruct (existsb _ catalog); congruence. }
      rewrite IH, <- app_assoc; [reflexivity | exact Hnd |].
      intros q p' [Hq|Hq]%elem_of_app Hp'.
      * apply Hfree; [exact Hq | by right].
      * apply list_elem_of_singleton in Hq as ->. intros Heq. apply Hp.
        rewrite Heq. by apply list_elem_of_fmap_2.
    + apply create_policy_clash in Hc as (q & Hq & Hn).
      exfalso. apply (Hfree q p Hq); [by left | exact Hn].
Qed.

Lemma create_all_clash (ps catalog : list policy) :
  (exists q p, q ∈ catalog /\ p ∈ ps /\ policyname q = policyname p) ->
  foldl (fun cat p => cat ≫= create_policy p) (Some catalog) ps = None.
Proof.
  revert catalog; induction ps as [|p0 ps IH]; intros catalog (q & p & Hq & Hp & Hn).
  - by apply elem_of_nil in Hp.
  - cbn [foldl mbind option_bind].
    destruct (create_policy p0 catalog) as [cat|] eqn:Hc; [|apply create_after_error].
    assert (cat = catalog ++ [p0]) as ->.
    { unfold create_policy in Hc. destruct (existsb _ catalog); congruence. }
    apply IH. exists q, p. split; [apply elem_of_app; by left|]. split; [|exact Hn].
    apply elem_of_cons in Hp as [->|Hp]; [|exact Hp].
    exfalso.
    assert (create_policy p0 catalog = None)
      by (apply create_policy_clash; by exists q).
    congruence.
Qed.

(** X19.  The CREATE POLICY statements of steps 5 and 10 succeed, and add
    their eight policies, when no policy on the table bears one of the eight
    names; they fail when one does.  So they fail over their own result: run
    twice, the script rests on step 2 to clear the names. *)
Theorem creation_needs_free_names (catalog : list policy) :
  ((forall q p, q ∈ catalog -> p ∈ created_on_listings ->
                policyname q <> policyname p) ->
   create_policies catalog = Some (catalog ++ created_on_listings)) /\
  ((exists q p, q ∈ catalog /\ p ∈ created_on_listings /\
                policyname q = policyname p) ->
   create_policies catalog = None) /\
  create_policies [] = Some created_on_listings /\
  create_policies created_on_listings = None.
Proof.
  split; [|split; [apply create_all_clash|split; reflexivity]].
  apply create_all_free. by apply (bool_decide_unpack _).
Qed.

End PolicyFacts.

Module RepairFacts.
Import Migration MigrationFacts Repair.

Lemma holds_sql_eq_refl (s : string) : holds (sql_eq (Some s) (Some s)) = true.
Proof. by apply holds_sql_eq. Qed.

Section Steps.

Variable default_id : list profile -> string.
Variable violation : list profile -> profile -> option sql_error.
Variable default_phone : option string.
Variable default_location : option string.

Lemma has_profile_app (tbl added : list profile) (u : auth_user) :
  has_profile (tbl ++ added) u = has_profile tbl u || has_profile added u.
Proof. unfold has_profile. apply existsb_app. Qed.

Lemma create_missing_added (us : list auth_user) (tbl tbl' : list profile)
    (ns ns' : list string) :
  create_missing default_id violation default_phone default_location us tbl ns
    = inl (tbl', ns') ->
  exists added,
    tbl' = tbl ++ added /\
    user_id <$> added = (fun u => Some (id u)) <$> us /\
    ns' = ns ++ (notice <$> us).
Proof.
  revert tbl ns; induction us as [|u us IH]; intros tbl ns; simpl.
  - intros [= <- <-]. exists []. by rewrite !app_nil_r.
  - unfold insert_profile.
    destruct (violation tbl _); [discriminate|].
    intros (added & -> & Hids & ->)%IH.
    eexists (_ :: added). rewrite <- !app_assoc. cbn. by rewrite Hids.
Qed.

Lemma filter_none {A} (p : A -> bool) (l : list A) :
  (forall x, x ∈ l -> p x = false) -> List.filter p l = [].
Proof.
  induction l as [|x l IH]; intros H; simpl; [reflexivity|].
  rewrite (H x) by left. apply IH. intros y Hy. apply H. by right.
Qed.

Lemma repair_profiles_inv (db db' : database) (notices : list string) :
  repair_profiles default_id violation default_phone default_location db
    = inl (db', notices) ->
  users db' = users db /\ warnings db' = warnings db /\
  notices = notice <$> users_without_profile db /\
  (exists added,
     profiles db' = profiles db ++ added /\
     user_id <$> added = (fun u => Some (id u)) <$> users_without_profile db) /\
  forall u, u ∈ users db -> has_profile (profiles db') u = true.
Proof.
  unfold repair_profiles.
  destruct (create_missing _ _ _ _ _ _ _) as [[tbl ns]|] eqn:H; [|discriminate].
  intros [= <- <-]. cbn [users profiles warnings].
  apply create_missing_added in H as (added & -> & Hids & ->).
  split; [reflexivity|]. split; [reflexivity|]. split; [reflexivity|]. split.
  - by exists added.
  - intros u Hu. rewrite has_profile_app.
    destruct (has_profile (profiles db) u) eqn:Hp; [reflexivity|]. cbn [orb].
    assert (Hin : u ∈ users_without_profile db).
    { unfold users_without_profile. apply list_elem_of_In, filter_In.
      split; [by apply list_elem_of_In | by rewrite Hp]. }
    assert (Hid : Some (id u) ∈ user_id <$> added).
    { rewrite Hids. by apply (list_elem_of_fmap_2 (fun u => Some (id u))). }
    apply list_elem_of_fmap in Hid as (p & Hp1 & Hp2).
    unfold has_profile. apply existsb_exists. exists p.
    split; [by apply list_elem_of_In|]. rewrite <- Hp1. apply holds_sql_eq_refl.
Qed.

(** X20.  When step 16 succeeds, every account has a profile, the accounts
    and the profiles that were there are as before, and one row was added per
    account that had none. *)
Theorem repair_covers_every_account (db db' : database) (notices : list string) :
  repair_profiles default_id violation default_phone default_location db
    = inl (db', notices) ->
  users db' = users db /\
  (exists added,
     profiles db' = profiles db ++ added /\
     length added = length (users_without_profile db)) /\
  forall u, u ∈ users db -> has_profile (profiles db') u = true.
Proof.
  intros (Hu & _ & _ & (added & Hadd & Hids) & Hall)%repair_profiles_inv.
  split; [exact Hu|]. split; [|exact Hall].
  exists added. split; [exact Hadd|].
  apply (f_equal length) in Hids. by rewrite !length_fmap in Hids.
Qed.

(** X21.  Step 16 run again after it succeeded inserts nothing and raises no
    notice. *)
Theorem repair_twice (db db' : database) (notices : list string) :
  repair_profiles default_id violation default_phone default_location db
    = inl (db', notices) ->
  repair_profiles default_id violation default_phone default_location db'
    = inl (db', []).
Proof.
  intros (Hu & _ & _ & _ & Hall)%repair_profiles_inv.
  unfold repair_profiles.
  assert (Hnone : users_without_profile db' = []).
  { unfold users_without_profile. apply filter_none.
    intros u Hin. rewrite Hu in Hin. by rewrite (Hall u Hin). }
  rewrite Hnone. simpl. by destruct db'.
Qed.

End Steps.

End RepairFacts.

Module TableFacts.
Import Migration MigrationFacts Repair Tables.

Lemma holds_sql_eq_both (a b : option string) :
  holds (sql_eq a b) = true <-> exists s, a = Some s /\ b = Some s.
Proof.
  destruct a as [x|], b as [y|]; cbn; try (split; [discriminate | by intros (? & ? & ?)]).
  destruct (String.eqb_spec x y) as [->|Hne]; split.
  - intros _. by exists y.
  - done.
  - discriminate.
  - intros (s & [= ->] & [= ->]). done.
Qed.

Lemma holds_sql_or (a b : option bool) : holds (sql_or a b) = holds a || holds b.
Proof. by destruct a as [[|]|], b as [[|]|]. Qed.

Lemma holds_sql_and (a b : option bool) : holds (sql_and a b) = holds a && holds b.
Proof. by destruct a as [[|]|], b as [[|]|]. Qed.

(** X22.  A message is read only by its sender and its receiver, inserted
    only by its sender, and updated or deleted by no one. *)
Theorem messages_private_and_final (who : caller) (m : message) :
  (allowed on_messages who SELECT m = true <->
   exists u, uid who = Some u /\ (sender_id m = Some u \/ receiver_id m = Some u)) /\
  (allowed on_messages who INSERT m = true <->
   exists u, uid who = Some u /\ sender_id m = Some u) /\
  allowed on_messages who UPDATE m = false /\
  allowed on_messages who DELETE m = false.
Proof.
  unfold allowed. cbn [on_messages existsb rule_cmd rule_qual command_eqb andb orb].
  rewrite !orb_false_r, holds_sql_or, orb_true_iff, !holds_sql_eq_both.
  split; [|split; [reflexivity|split; reflexivity]].
  split.
  - intros [(u & ? & ?)|(u & ? & ?)]; exists u; auto.
  - intros (u & ? & [?|?]); [left|right]; by exists u.
Qed.

(** X23.  Every caller, with a session or without, reads every profile; no
    caller deletes one; a profile is inserted and updated only by its user. *)
Theorem profiles_public_and_permanent (who : caller) (p : profile) :
  allowed on_profiles who SELECT p = true /\
  allowed on_profiles who DELETE p = false /\
  (allowed on_profiles who INSERT p = true <->
   exists u, uid who = Some u /\ user_id p = Some u) /\
  (allowed on_profiles who UPDATE p = true <->
   exists u, uid who = Some u /\ user_id p = Some u).
Proof.
  unfold allowed. cbn [on_profiles existsb rule_cmd rule_qual command_eqb andb orb holds].
  rewrite !orb_false_r, !holds_sql_eq_both. by repeat split.
Qed.

Section Storage.

Variable foldername : string -> list string.

(** X24.  In the two image buckets any caller with a session may upload
    under any name, a caller may delete only objects whose first folder is the
    caller's id, and no caller may update an object. *)
Theorem storage_upload_anywhere_delete_own (who : caller) (o : storage_object) :
  (allowed (on_storage_objects foldername) who INSERT o = true <->
   (bucket_id o = Some "listing-images" \/ bucket_id o = Some "profile-images") /\
   uid who <> None) /\
  (allowed (on_storage_objects foldername) who DELETE o = true <->
   (bucket_id o = Some "listing-images" \/ bucket_id o = Some "profile-images") /\
   exists u name, uid who = Some u /\ object_name o = Some name /\
                  head (foldername name) = Some u) /\
  allowed (on_storage_objects foldername) who UPDATE o = false.
Proof.
  unfold allowed.
  cbn [on_storage_objects existsb rule_cmd rule_qual command_eqb andb orb].
  rewrite !orb_false_r, !holds_sql_and, !orb_true_iff, !andb_true_iff, !holds_sql_eq,
    holds_sql_eq_both.
  split; [|split; [|reflexivity]].
  - destruct (uid who); cbn; split.
    + intros [[? _]|[? _]]; split; auto; discriminate.
    + intros [[?|?] _]; auto.
    + intros [[_ ?]|[_ ?]]; discriminate.
    + intros [_ ?]; congruence.
  - unfold first_folder. split.
    + intros [[Hb (u & Hu & Hf)]|[Hb (u & Hu & Hf)]];
        (split; [auto|]); destruct (object_name o) as [n|]; try discriminate;
        exists u, n; auto.
    + intros [Hb (u & n & Hu & Hn & Hf)].
      assert (exists s, uid who = Some s /\
                        object_name o ≫= (fun n => head (foldername n)) = Some s)
        by (exists u; rewrite Hn; auto).
      destruct Hb; auto.
Qed.

End Storage.

(** X25.  [first_field] cuts a text at its first delimiter: the result has no
    delimiter, and what follows it in the text is nothing or starts with the
    delimiter. *)
Theorem first_field_splits (delim : ascii) (s : string) :
  ~ In delim (list_ascii_of_string (first_field delim s)) /\
  exists rest,
    s = first_field delim s +:+ rest /\
    (rest = EmptyString \/ exists tail, rest = String delim tail).
Proof.
  induction s as [|c s [IHno (rest & IHs & IHrest)]]; cbn [first_field].
  - split; [by intros []|]. exists EmptyString. auto.
  - destruct (Ascii.eqb_spec c delim) as [->|Hne].
    + split; [by intros []|]. exists (String delim s). split; [reflexivity|]. right. by exists s.
    + split.
      * cbn. intros [?|?]; [congruence|auto].
      * exists rest. split; [|exact IHrest].
        change (String c (first_field delim s) +:+ rest)
          with (String c (first_field delim s +:+ rest)). by rewrite <- IHs.
Qed.

(** X26.  Step 17 keeps the number of rows and, in each row, every column
    but [is_admin]; it sets that flag on the rows with the administrative
    address and leaves it as it was on the others; run again it changes
    nothing. *)
Theorem update_admin_settles (tbl : list profile) :
  update_admin (update_admin tbl) = update_admin tbl /\
  length (update_admin tbl) = length tbl /\
  Forall2 (fun p q =>
             profile_id q = profile_id p /\ user_id q = user_id p /\
             name q = name p /\ email q = email p /\ phone q = phone p /\
             location q = location p /\ seller_type q = seller_type p /\
             verified q = verified p /\
             (email p = Some "admin@nexar.ro" -> is_admin q = Some true) /\
             (email p <> Some "admin@nexar.ro" -> is_admin q = is_admin p))
    tbl (update_admin tbl).
Proof.
  unfold update_admin. split; [|split].
  - rewrite <- list_fmap_compose. apply list_fmap_ext. intros i p _. cbn.
    destruct (holds (sql_eq (email p) (Some "admin@nexar.ro"))) eqn:E; cbn; by rewrite E.
  - apply length_fmap.
  - apply Forall2_fmap_r, Forall_Forall2_diag, Forall_forall. intros p _.
    unfold compose. cbv beta.
    destruct (holds (sql_eq (email p) (Some "admin@nexar.ro"))) eqn:E; cbn.
    + apply holds_sql_eq in E. repeat split; try reflexivity. by intros H.
    + repeat split; try reflexivity. intros H%holds_sql_eq. congruence.
Qed.

Lemma update_admin_fixed (p : profile) :
  is_admin p = sql_eq (email p) (Some "admin@nexar.ro") -> update_admin [p] = [p].
Proof.
  intros H. unfold update_admin. cbn.
  destruct (holds (sql_eq (email p) (Some "admin@nexar.ro"))) eqn:E; [|reflexivity].
  unfold holds in E. destruct (sql_eq (email p) _) as [[|]|]; try discriminate.
  destruct p; cbn in *. by rewrite H.
Qed.

Section Written.

Variable jsonb_out : jsonb -> string.
Variable default_id : list profile -> string.
Variable default_phone : option string.
Variable default_location : option string.

(** X27.  The rows written by [handle_new_user] and by step 16 are left as
    they are by step 17, and the two agree on [is_admin] and [verified]. *)
Theorem written_rows_already_settled (u : auth_user) (tbl : list profile) :
  update_admin [new_profile jsonb_out default_id u tbl]
    = [new_profile jsonb_out default_id u tbl] /\
  update_admin [missing_profile default_id default_phone default_location u tbl]
    = [missing_profile default_id default_phone default_location u tbl] /\
  is_admin (missing_profile default_id default_phone default_location u tbl)
    = is_admin (new_profile jsonb_out default_id u tbl) /\
  verified (missing_profile default_id default_phone default_location u tbl)
    = verified (new_profile jsonb_out default_id u tbl).
Proof.
  split; [by apply update_admin_fixed|]. split; [by apply update_admin_fixed|].
  by split.
Qed.

End Written.

End TableFacts.

Module AvailabilityFacts.
Import Migration MigrationFacts Availability.

Lemma backfill_condition (r : row) :
  holds (sql_and (sql_eq (row_seller_type r) (Some "dealer"))
                 (is_null (row_availability r))) = true <->
  row_seller_type r = Some "dealer" /\ row_availability r = None.
Proof.
  rewrite <- holds_sql_eq.
  destruct (sql_eq (row_seller_type r) (Some "dealer")) as [[|]|],
    (row_availability r); cbn; split; try done; by intros [? ?].
Qed.

(** X28.  After the availability migration the column is there, the seller
    types are as before, and no dealer row has a NULL availability. *)
Theorem dealers_get_a_stock_state (t : listings_table) :
  has_availability (add_availability t) = true /\
  row_seller_type <$> rows (add_availability t) = row_seller_type <$> rows t /\
  forall r, r ∈ rows (add_availability t) ->
            row_seller_type r = Some "dealer" -> row_availability r <> None.
Proof.
  unfold add_availability, backfill_dealers, add_column.
  destruct (has_availability t) eqn:Hc; cbn [has_availability rows].
  - split; [exact Hc|]. split.
    + rewrite <- list_fmap_compose. apply list_fmap_ext. intros i r _. cbn.
      by destruct (holds _).
    + intros r (r0 & -> & _)%list_elem_of_fmap.
      destruct (holds _) eqn:E; cbn; [discriminate|].
      intros Hd Hn. assert (holds (sql_and (sql_eq (row_seller_type r0) (Some "dealer"))
                 (is_null (row_availability r0))) = true) by (by apply backfill_condition).
      congruence.
  - split; [reflexivity|]. split.
    + rewrite <- !list_fmap_compose. apply list_fmap_ext. intros i r _. cbn.
      by destruct (holds _).
    + intros r (r1 & -> & (r0 & -> & _)%list_elem_of_fmap)%list_elem_of_fmap.
      cbn. by destruct (holds _).
Qed.

(** X29.  The availability migration run again changes nothing. *)
Theorem add_availability_twice (t : listings_table) :
  add_availability (add_availability t) = add_availability t.
Proof.
  assert (Hcol : has_availability (add_availability t) = true).
  { unfold add_availability, backfill_dealers, add_column.
    by destruct (has_availability t) eqn:Hc. }
  unfold add_availability at 1. unfold add_column. rewrite Hcol.
  unfold backfill_dealers at 1.
  destruct (add_availability t) as [c k rs] eqn:Ht.
  cbn [has_availability has_availability_check rows].
  f_equal.
  assert (Hrs : rs = rows (add_availability t)) by (by rewrite Ht).
  rewrite <- (list_fmap_id rs) at 2. apply list_fmap_ext. intros i r Hr. cbn.
  destruct (holds _) eqn:E; [|reflexivity].
  apply backfill_condition in E as [Hd Hn].
  exfalso. revert Hn. 
  assert (Hin : r ∈ rows (add_availability t)).
  { rewrite <- Hrs. by eapply list_elem_of_lookup_2. }
  clear Ht Hrs Hr.
  unfold add_availability, backfill_dealers, add_column in Hin.
  destruct (has_availability t); cbn [rows] in Hin.
  - apply list_elem_of_fmap in Hin as (r0 & -> & _).
    destruct (holds _) eqn:E; cbn in *; [discriminate|].
    intros Hn. assert (holds (sql_and (sql_eq (row_seller_type r0) (Some "dealer"))
                 (is_null (row_availability r0))) = true) by (by apply backfill_condition).
    congruence.
  - apply list_elem_of_fmap in Hin as (r1 & -> & (r0 & -> & _)%list_elem_of_fmap).
    cbn. by destruct (holds _).
Qed.

(** X30.  When the column was not there, every row ends with ['pe_stoc'] and
    the constraint is added; when it was, the constraint is left as it was and
    only the dealer rows with NULL change. *)
Theorem column_there_or_not (t : listings_table) :
  (has_availability t = false ->
   has_availability_check (add_availability t) = true /\
   Forall (fun r => row_availability r = Some "pe_stoc") (rows (add_availability t))) /\
  (has_availability t = true ->
   has_availability_check (add_availability t) = has_availability_check t /\
   Forall2 (fun r r' =>
              (row_seller_type r = Some "dealer" /\ row_availability r = None ->
               row_availability r' = Some "pe_stoc") /\
              (~ (row_seller_type r = Some "dealer" /\ row_availability r = None) ->
               r' = r))
     (rows t) (rows (add_availability t))).
Proof.
  unfold add_availability, backfill_dealers, add_column.
  split; intros ->; cbn [has_availability_check rows].
  - split; [reflexivity|]. rewrite <- list_fmap_compose.
    apply Forall_fmap, Forall_forall. intros r _. cbn. by destruct (holds _).
  - split; [reflexivity|].
    apply Forall2_fmap_r, Forall_Forall2_diag, Forall_forall. intros r _.
    unfold compose. cbv beta.
    destruct (holds _) eqn:E.
    + split; [reflexivity|]. apply backfill_condition in E. tauto.
    + split; [|reflexivity]. intros H%backfill_condition. congruence.
Qed.

End AvailabilityFacts.

(** * The further properties at sample inputs *)

Module AtSamples.
Import Js HomePage Examples MoreExamples.

Lemma success_forgets_the_past_witness :
  fetch_failure source_up LoadListings = None /\
  run source_up LoadListings initial = run source_up LoadListings loaded.
Proof.
  split; [reflexivity|].
  apply (PageFacts.success_forgets_the_past source_up LoadListings initial loaded).
  reflexivity.
Defined.

Lemma network_state_iff_witness :
  fetch_failure source_down LoadListings = Some unreachable /\
  (networkError (run source_down LoadListings initial) = Some unreachable
   <-> contains unreachable "fetch" \/ contains unreachable "network") /\
  (is_Some (error (run source_down LoadListings initial))
   <-> ~ (contains unreachable "fetch" \/ contains unreachable "network")).
Proof.
  split; [reflexivity|].
  apply (PageFacts.network_state_iff source_down LoadListings initial unreachable).
  reflexivity.
Defined.

Lemma featured_failure_skips_recent_witness :
  source_featured_down (Some {| featured := Some true; category := None |})
    = source_down (Some {| featured := Some true; category := None |}) /\
  failure (source_down (Some {| featured := Some true; category := None |}))
    = Some unreachable /\
  loadListings source_featured_down loaded = loadListings source_down loaded.
Proof.
  split; [reflexivity|]. split; [reflexivity|].
  apply (PageFacts.featured_failure_skips_recent source_down source_featured_down
           loaded unreachable); reflexivity.
Defined.

Lemma shown_in_order_witness :
  source_up (Some {| featured := Some true; category := None |})
    = Resolved (Some (moto <$> [1; 2; 3; 4; 5]%Z)) None /\
  source_up None
    = Resolved (Some (moto <$> [1; 2; 3; 4; 5; 6; 7; 8; 9; 10; 11; 12]%Z)) None /\
  Forall2 (fun raw d => formatListing raw = Ok d)
    (take 4 (default [] (Some (moto <$> [1; 2; 3; 4; 5]%Z))))
    (featuredListings (loadListings source_up initial)) /\
  exists shown,
    shown `sublist_of`
      default [] (Some (moto <$> [1; 2; 3; 4; 5; 6; 7; 8; 9; 10; 11; 12]%Z)) /\
    Forall2 (fun raw d => formatListing raw = Ok d)
      shown (recentListings (loadListings source_up initial)).
Proof.
  split; [reflexivity|]. split; [reflexivity|].
  apply (PageFacts.shown_in_order source_up initial
           (Some (moto <$> [1; 2; 3; 4; 5]%Z))
           (Some (moto <$> [1; 2; 3; 4; 5; 6; 7; 8; 9; 10; 11; 12]%Z)));
    reflexivity.
Defined.

Lemma no_featured_no_exclusion_witness :
  source_no_featured (Some {| featured := Some true; category := None |})
    = Resolved None None /\
  source_no_featured None = Resolved (Some (moto <$> [1; 2; 3]%Z)) None /\
  featuredListings (loadListings source_no_featured loaded) = [] /\
  Forall2 (fun raw d => formatListing raw = Ok d)
    (take 8 (default [] (Some (moto <$> [1; 2; 3]%Z))))
    (recentListings (loadListings source_no_featured loaded)).
Proof.
  split; [reflexivity|]. split; [reflexivity|].
  apply (PageFacts.no_featured_no_exclusion source_no_featured loaded
           (Some (moto <$> [1; 2; 3]%Z))); reflexivity.
Defined.

Lemma nothing_lost_below_cap_witness :
  source_small (Some {| featured := Some true; category := None |})
    = Resolved (Some (moto <$> [1; 2]%Z)) None /\
  source_small None = Resolved (Some (moto <$> [1; 2; 3]%Z)) None /\
  length (default [] (Some (moto <$> [1; 2; 3]%Z))) <= 8 /\
  forall raw, raw ∈ default [] (Some (moto <$> [1; 2; 3]%Z)) ->
    (exists d, d ∈ recentListings (loadListings source_small initial) /\
               formatListing raw = Ok d) \/
    (exists f, f ∈ featuredListings (loadListings source_small initial) /\
               strict_eq (get f "id") (get raw "id") = true).
Proof.
  split; [reflexivity|]. split; [reflexivity|]. split; [cbn; lia|].
  apply (PageFacts.nothing_lost_below_cap source_small initial
           (Some (moto <$> [1; 2]%Z)) (Some (moto <$> [1; 2; 3]%Z)));
    [reflexivity | reflexivity | cbn; lia].
Defined.

Lemma display_record_keys_witness :
  formatListing listing_of_ion = Ok display_of_ion /\
  dom display_of_ion = list_to_set
    ["id"; "title"; "price"; "year"; "mileage"; "location"; "image"; "seller";
     "sellerId"; "sellerType"; "category"; "brand"; "model"; "featured";
     "availability"].
Proof.
  split; [reflexivity|].
  apply (PageFacts.display_record_keys listing_of_ion display_of_ion). reflexivity.
Defined.

Lemma display_flags_witness :
  formatListing bike = Ok display_of_bike /\
  truthy (get display_of_bike "availability") = true /\
  (truthy (get display_of_bike "featured") = true \/
   get display_of_bike "featured" = VBool false) /\
  (forall ref x rest,
     get bike "images" = VArr ref (x :: rest) -> get display_of_bike "image" = x).
Proof.
  split; [reflexivity|].
  apply (PageFacts.display_flags bike display_of_bike). reflexivity.
Defined.

Lemma card_of_formatted_witness :
  formatListing bike = Ok display_of_bike /\
  Card.ListingCard ro_number "," display_of_bike = Ok card_of_bike /\
  Card.premium card_of_bike
    = (if truthy (get bike "featured") then Card.Badge else Card.Nothing) /\
  (Card.stock card_of_bike = None <-> get bike "seller_type" <> VStr "dealer") /\
  (Card.stock card_of_bike = Some Card.PeStoc <->
   get bike "seller_type" = VStr "dealer" /\
   (truthy (get bike "availability") = false \/
    get bike "availability" = VStr "pe_stoc")).
Proof.
  split; [reflexivity|]. split; [reflexivity|].
  apply (CardFacts.card_of_formatted ro_number "," bike display_of_bike card_of_bike);
    reflexivity.
Defined.

Import Migration.

Lemma anonymous_reads_active_only_witness :
  uid visitor = None /\ auth_email visitor = None /\
  (permitted created_on_listings [profile_of_ion] visitor SELECT draft_of_maria = true
   <-> status draft_of_maria = Some "active") /\
  permitted created_on_listings [profile_of_ion] visitor INSERT draft_of_maria = false /\
  permitted created_on_listings [profile_of_ion] visitor UPDATE draft_of_maria = false /\
  permitted created_on_listings [profile_of_ion] visitor DELETE draft_of_maria = false.
Proof.
  split; [reflexivity|]. split; [reflexivity|].
  apply (PolicyFacts.anonymous_reads_active_only [profile_of_ion] visitor
           draft_of_maria); reflexivity.
Defined.


Lemma own_listing_one_profile_witness :
  uid ion = Some "u-ion" /\
  (forall p q, p ∈ [profile_of_ion] -> q ∈ [profile_of_ion] ->
               user_id p = Some "u-ion" -> user_id q = Some "u-ion" ->
               profile_id p = profile_id q) /\
  (holds (own_listing [profile_of_ion] ion listing_by_ion) = true <->
   exists p, p ∈ [profile_of_ion] /\ user_id p = Some "u-ion" /\
             seller_id listing_by_ion = Some (profile_id p)).
Proof.
  assert (H : forall p q, p ∈ [profile_of_ion] -> q ∈ [profile_of_ion] ->
               user_id p = Some "u-ion" -> user_id q = Some "u-ion" ->
               profile_id p = profile_id q).
  { intros p q Hp Hq _ _.
    apply list_elem_of_singleton in Hp, Hq. by subst. }
  split; [reflexivity|]. split; [exact H|].
  apply (PolicyFacts.own_listing_one_profile [profile_of_ion] ion listing_by_ion "u-ion");
    [reflexivity | exact H].
Defined.

Lemma repair_covers_every_account_witness :
  Repair.repair_profiles first_id no_constraint None None account_only
    = inl (account_repaired, ["Created missing profile for user admin@nexar.ro"]) /\
  users account_repaired = users account_only /\
  (exists added,
     profiles account_repaired = profiles account_only ++ added /\
     length added = length (Repair.users_without_profile account_only)) /\
  forall u, u ∈ users account_only ->
            Repair.has_profile (profiles account_repaired) u = true.
Proof.
  split; [reflexivity|].
  apply (RepairFacts.repair_covers_every_account first_id no_constraint None None
           account_only account_repaired
           ["Created missing profile for user admin@nexar.ro"]).
  reflexivity.
Defined.

Lemma repair_twice_witness :
  Repair.repair_profiles first_id no_constraint None None account_only
    = inl (account_repaired, ["Created missing profile for user admin@nexar.ro"]) /\
  Repair.repair_profiles first_id no_constraint None None account_repaired
    = inl (account_repaired, []).
Proof.
  split; [reflexivity|].
  apply (RepairFacts.repair_twice first_id no_constraint None None
           account_only account_repaired
           ["Created missing profile for user admin@nexar.ro"]).
  reflexivity.
Defined.

End AtSamples.
